(** * Card pull pipeline of ldc-shop ([_workers_next/src/lib/card-api.ts])

    A shallow embedding of the card API glue: the settings-backed
    configuration resolver, the schema-tolerant card key extractor, the
    duplicate detection heuristic and the pull orchestrator, followed by
    the properties the design document states about them.

    Conventions of the embedding.
    - A JavaScript string is a [string]: every character stands for one
      code unit below 256.  On that range [String.prototype.trim] and
      [String.prototype.toLowerCase] are defined exactly below.
    - A JavaScript number is an IEEE double ([float]).
    - A value thrown by a collaborator is a [JsError]: plain data with a
      message of any type and a serialisation that gives a text or
      throws.
    - The conversions [Number] on a string and [String] on a number are
      parameters ([Builtins]).
    - Asynchronous functions run to completion one after the other; the
      monad [M] threads the database and the trace of collaborator calls
      and carries a thrown value until a handler catches it.

    The update check of the admin panel ([update-check-client], with
    the banner of [components/admin/update-notification.tsx]) is embedded
    the same way; one mount of the banner is its initial state, one run
    of its effect and the clicks that follow. *)

From Stdlib Require Import Ascii String NArith ZArith PrimFloat Floats DecimalString.
From stdpp Require Import base option list strings gmap fin_maps.

Local Open Scope string_scope.

(** ** Strings as the built-ins see them *)

Module JsString.

(** White space removed by [trim] among the code units below 256:
    TAB, LF, VT, FF, CR, SP and NBSP. *)
Definition is_space (c : ascii) : bool :=
  match N_of_ascii c with
  | 9 | 10 | 11 | 12 | 13 | 32 | 160 => true
  | _ => false
  end%N.

Fixpoint trimStart (s : string) : string :=
  match s with
  | EmptyString => EmptyString
  | String c rest => if is_space c then trimStart rest else s
  end.

Fixpoint trimEnd (s : string) : string :=
  match s with
  | EmptyString => EmptyString
  | String c rest =>
      match trimEnd rest with
      | EmptyString => if is_space c then EmptyString else String c EmptyString
      | kept => String c kept
      end
  end.

(** [s.trim()] *)
Definition trim (s : string) : string := trimEnd (trimStart s).

(** Lower case of one code unit: A-Z, and the capital letters of the
    upper half (0xC0-0xDE without the multiplication sign 0xD7). *)
Definition lower_char (c : ascii) : ascii :=
  let n := N_of_ascii c in
  if ((65 <=? n) && (n <=? 90))%N then ascii_of_N (n + 32)
  else if ((192 <=? n) && (n <=? 222) && negb (n =? 215))%N then ascii_of_N (n + 32)
  else c.

(** [s.toLowerCase()] *)
Fixpoint toLowerCase (s : string) : string :=
  match s with
  | EmptyString => EmptyString
  | String c rest => String (lower_char c) (toLowerCase rest)
  end.

(** [s.includes(pat)] *)
Fixpoint includes (s pat : string) : bool :=
  String.prefix pat s
  || match s with
     | EmptyString => false
     | String _ rest => includes rest pat
     end.

(** Truthiness of a string: [!!s]. *)
Definition nonempty (s : string) : bool :=
  match s with EmptyString => false | String _ _ => true end.

(** [a || b] on strings. *)
Definition or_else (a b : string) : string := if nonempty a then a else b.

(** [`${n}`] for a non-negative integer. *)
Definition of_N (n : N) : string := NilZero.string_of_uint (N.to_uint n).

End JsString.

Import JsString.

(** ** Decoded payloads *)

(** What [response.json()] or [response.text()] can hand to the
    extractor, plus [undefined], which a missing property reads as.  An
    object is the list of its own properties. *)
#[local] Unset Elimination Schemes.
Inductive JsValue : Type :=
| JUndefined
| JNull
| JBool (b : bool)
| JNum (x : float)
| JStr (s : string)
| JArr (items : list JsValue)
| JObj (fields : list (string * JsValue)).
#[local] Set Elimination Schemes.

(** [!!payload] *)
Definition truthy (payload : JsValue) : bool :=
  match payload with
  | JUndefined | JNull => false
  | JBool b => b
  | JNum x => negb (PrimFloat.eqb x 0 || negb (PrimFloat.eqb x x))
  | JStr s => nonempty s
  | JArr _ | JObj _ => true
  end.

(** [payload?.[k]] on an object's property list. *)
Fixpoint property (k : string) (fields : list (string * JsValue)) : JsValue :=
  match fields with
  | [] => JUndefined
  | (k', v) :: rest => if String.eqb k' k then v else property k rest
  end.

Definition directKeys : list string := ["cardKey"; "card"; "key"; "code"].
Definition nestedKeys : list string := ["data"; "result"; "item"].

(** The first loop of the object branch: the first direct key bound to
    a string that is non-empty after trimming, trimmed. *)
Fixpoint probeDirect (fields : list (string * JsValue)) (keys : list string)
  : option string :=
  match keys with
  | [] => None
  | k :: rest =>
      match property k fields with
      | JStr v => if nonempty (trim v) then Some (trim v) else probeDirect fields rest
      | _ => probeDirect fields rest
      end
  end.

(** [extractCardKey].  The two inner loops over sub-payloads are local
    fixpoints, so that the recursion is structural: [scan] is the loop
    over an array, [probe] the loop over [nestedKeys], and [read k]
    is [extractCardKey(payload?.[k])]. *)
Fixpoint extractCardKey (payload : JsValue) : string :=
  if negb (truthy payload) then ""
  else
    match payload with
    | JStr s => trim s
    | JArr items =>
        (fix scan (l : list JsValue) : string :=
           match l with
           | [] => ""
           | item :: rest =>
               let value := extractCardKey item in
               if nonempty value then value else scan rest
           end) items
    | JObj fields =>
        match probeDirect fields directKeys with
        | Some v => v
        | None =>
            (fix probe (keys : list string) : string :=
               match keys with
               | [] => ""
               | k :: keys' =>
                   let value :=
                     (fix read (fs : list (string * JsValue)) : string :=
                        match fs with
                        | [] => ""
                        | (k', v) :: fs' =>
                            if String.eqb k' k then extractCardKey v else read fs'
                        end) fields in
                   if nonempty value then value else probe keys'
               end) nestedKeys
        end
    | _ => ""
    end.

(** ** Collaborators, database and trace *)

(** A value caught by [catch (error: any)], taken as plain data (reading
    it runs no code of its own): [err_message] is [error?.message], of
    any type and [undefined] when there is none, and [err_json] is what
    [JSON.stringify(error || {})] does, which gives a text to put into a
    template or throws (on a cycle or a BigInt, say). *)
Inductive JsError : Type :=
| mkJsError (message : JsValue) (json : Serialised)
with Serialised : Type :=
| Serialised_text (text : string)
| Serialised_throws (thrown : JsError).

Definition err_message (error : JsError) : JsValue :=
  match error with mkJsError message _ => message end.

Definition err_json (error : JsError) : Serialised :=
  match error with mkJsError _ json => json end.

Inductive Result (A : Type) : Type :=
| Ok (a : A)
| Throw (e : JsError).
Arguments Ok {A} a.
Arguments Throw {A} e.

(** [a || b] on values. *)
Definition js_or (a b : JsValue) : JsValue := if truthy a then a else b.

(** [error?.message || fallback]: the message when it is truthy,
    whatever its type. *)
Definition message_or (error : JsError) (fallback : string) : JsValue :=
  js_or (err_message error) (JStr fallback).

(** Built-ins of the language that are taken as given: [Number(s)] on a
    string, [String(x)] on a number, and the [TypeError] thrown for an
    object that has no primitive value. *)
Record Builtins := {
  js_Number : string -> float;
  js_number_text : float -> string;
  js_not_primitive : JsError
}.

Fixpoint has_property (name : string) (fields : list (string * JsValue)) : bool :=
  match fields with
  | [] => false
  | (k, _) :: rest => String.eqb k name || has_property name rest
  end.

(** [String(v)].  An array is its elements joined by commas, null and
    undefined elements reading as empty; an object is [[object Object]]
    unless a property of its own hides [toString], in which case no
    primitive value is found and a [TypeError] is thrown. *)
Fixpoint js_String (js : Builtins) (v : JsValue) : Result string :=
  match v with
  | JUndefined => Ok "undefined"
  | JNull => Ok "null"
  | JBool b => Ok (if b then "true" else "false")
  | JNum x => Ok (js_number_text js x)
  | JStr s => Ok s
  | JArr items =>
      (fix join (l : list JsValue) : Result string :=
         match l with
         | [] => Ok ""
         | x :: rest =>
             match (match x with
                    | JUndefined | JNull => Ok ""
                    | _ => js_String js x
                    end) with
             | Throw e => Throw e
             | Ok head =>
                 match rest with
                 | [] => Ok head
                 | _ :: _ =>
                     match join rest with
                     | Throw e => Throw e
                     | Ok tail => Ok (head ++ "," ++ tail)
                     end
                 end
             end
         end) items
  | JObj fields =>
      if has_property "toString" fields then Throw (js_not_primitive js)
      else Ok "[object Object]"
  end.

(** [`${v}`]: a value inside a template is converted as [String(v)]
    converts it. *)
Definition message_text (js : Builtins) (error : JsError) : Result string :=
  js_String js (message_or error "").

Record Card := { card_productId : string; card_cardKey : string }.

Record Request := {
  req_url : string;
  req_method : string;
  req_headers : list (string * string);
  req_cache : string
}.

(** A fetch response: [response.status], [response.headers.get("content-type")]
    and what awaiting [response.json()] and [response.text()] gives. *)
Record Response := {
  status : N;
  content_type : option string;
  body_json : Result JsValue;
  body_text : Result string
}.

(** [response.ok]: the status is in the range 200-299. *)
Definition response_ok (r : Response) : bool :=
  ((200 <=? status r) && (status r <=? 299))%N.

Inductive Event :=
| EvSelectSettings (keys : list string)
| EvSetSetting (key value : string)
| EvFetch (req : Request)
| EvInsertCard (row : Card).

(** The settings table maps a key to its nullable value; a store that
    cannot be read rejects every query with an error. *)
Inductive SettingsTable :=
| SettingsRows (rows : gmap string (option string))
| SettingsFault (e : JsError).

Record World := {
  settings : SettingsTable;
  cards : list Card;
  trace : list Event
}.

(** What lies outside the database: the URL parser ([new URL(s).toString()],
    which throws on a malformed URL), the upstream API, and the verdict
    of the cards table on an insert ([Some e]: the insert rejects with
    [e]). *)
Record Env := {
  url_parse : string -> Result string;
  http_fetch : Request -> Result Response;
  cards_verdict : list Card -> Card -> option JsError
}.

(** ** The effect monad *)

Definition M (A : Type) : Type := World -> Result A * World.

Definition ret {A} (a : A) : M A := fun w => (Ok a, w).
Definition throw {A} (e : JsError) : M A := fun w => (Throw e, w).

Definition bind {A B} (m : M A) (k : A -> M B) : M B :=
  fun w =>
    match m w with
    | (Ok a, w') => k a w'
    | (Throw e, w') => (Throw e, w')
    end.

(** [try { body } catch (error) { handler }]: effects of the body stay. *)
Definition try_catch {A} (body : M A) (handler : JsError -> M A) : M A :=
  fun w =>
    match body w with
    | (Ok a, w') => (Ok a, w')
    | (Throw e, w') => handler e w'
    end.

Definition lift {A} (r : Result A) : M A := fun w => (r, w).

(** Every collaborator call is appended to the trace. *)
Definition record_event (ev : Event) (w : World) : World :=
  {| settings := settings w; cards := cards w; trace := trace w ++ [ev] |}.

Definition emit (ev : Event) : M unit := fun w => (Ok tt, record_event ev w).

Declare Scope js_scope.
Delimit Scope js_scope with js.
Notation "x <- m ;; k" := (bind m (fun x => k))
  (at level 100, m at next level, right associativity) : js_scope.
Notation "m ;;; k" := (bind m (fun _ => k))
  (at level 100, right associativity) : js_scope.
Local Open Scope js_scope.

(** ** Store and network primitives *)

(** [db.select({key, value}).from(settings).where(inArray(settings.key, keys))] *)
Definition select_settings (keys : list string) : M (list (string * option string)) :=
  emit (EvSelectSettings keys) ;;;
  fun w =>
    match settings w with
    | SettingsRows rows =>
        (Ok (filter (fun row => row.1 ∈ keys) (map_to_list rows)), w)
    | SettingsFault e => (Throw e, w)
    end.

(** Modelled from the spec: [setSetting] of [lib/db/queries], which is
    not among the sources.  The settings store is a string-valued
    key/value store with a set operation: the key is bound to the value,
    whether or not it was bound before. *)
Definition setSetting (key value : string) : M unit :=
  emit (EvSetSetting key value) ;;;
  fun w =>
    match settings w with
    | SettingsRows rows =>
        (Ok tt, {| settings := SettingsRows (<[key := Some value]> rows);
                   cards := cards w; trace := trace w |})
    | SettingsFault e => (Throw e, w)
    end.

(** [fetch(requestUrl, { method, headers, cache })] *)
Definition fetch (env : Env) (req : Request) : M Response :=
  emit (EvFetch req) ;;; lift (http_fetch env req).

Definition store_card (row : Card) (w : World) : World :=
  {| settings := settings w; cards := cards w ++ [row]; trace := trace w |}.

(** [db.insert(cards).values(row)]: the row is stored unless the table
    rejects it. *)
Definition insert_card (env : Env) (row : Card) : M unit :=
  emit (EvInsertCard row) ;;;
  fun w =>
    match cards_verdict env (cards w) row with
    | Some e => (Throw e, w)
    | None => (Ok tt, store_card row w)
    end.

(** ** The functions of [card-api.ts] *)

Record ProductCardApiConfig := {
  enabled : bool;
  url : string;
  token : string
}.

Inductive Field := FEnabled | FUrl | FToken.

Definition field_name (f : Field) : string :=
  match f with
  | FEnabled => "enabled"
  | FUrl => "url"
  | FToken => "token"
  end.

Definition keyOf (productId : string) (field : Field) : string :=
  "cards_api_" ++ field_name field ++ "_" ++ productId.

Definition resolveApiUrl (env : Env) (rawUrl : string) : Result string :=
  let trimmed := trim rawUrl in
  if negb (nonempty trimmed) then Ok ""
  else url_parse env trimmed.

(** The text both error heuristics inspect:
    [`${error?.message || ""}${JSON.stringify(error || {})}`.toLowerCase()]. *)
Definition error_text (js : Builtins) (error : JsError) : Result string :=
  match message_text js error with
  | Throw thrown => Throw thrown
  | Ok message =>
      match err_json error with
      | Serialised_throws thrown => Throw thrown
      | Serialised_text json => Ok (toLowerCase (message ++ json))
      end
  end.

Definition isUniqueConstraintError (js : Builtins) (error : JsError) : Result bool :=
  match error_text js error with
  | Throw thrown => Throw thrown
  | Ok text => Ok (includes text "unique" || includes text "constraint failed")
  end.

(** [row.value || ""], and [values[key] || ""] on the result object *)
Definition value_or_empty (value : option string) : string :=
  match value with
  | Some v => or_else v ""
  | None => ""
  end.

Definition getSettingsUncached (js : Builtins) (keys : list string)
  : M (gmap string string) :=
  try_catch
    (rows <- select_settings keys ;;
     ret (foldl (fun (map : gmap string string) row =>
                   <[row.1 := value_or_empty row.2]> map) ∅ rows))
    (fun error =>
       text <- lift (error_text js error) ;;
       if includes text "no such table" && includes text "settings"
       then ret ∅
       else throw error).

(** [values[key] === "true"] *)
Definition is_true_string (value : option string) : bool :=
  match value with
  | Some v => String.eqb v "true"
  | None => false
  end.

Definition getProductCardApiConfig (js : Builtins) (productId : string)
  : M ProductCardApiConfig :=
  let enabledKey := keyOf productId FEnabled in
  let urlKey := keyOf productId FUrl in
  let tokenKey := keyOf productId FToken in
  values <- getSettingsUncached js [enabledKey; urlKey; tokenKey] ;;
  ret {| enabled := is_true_string (values !! enabledKey);
         url := trim (value_or_empty (values !! urlKey));
         token := trim (value_or_empty (values !! tokenKey)) |}.

(** [await Promise.all(calls)] over calls that were all started: every
    call runs, whether or not another one fails, and the first error, if
    there is one, is thrown. *)
Fixpoint promise_all (calls : list (M unit)) : M unit :=
  match calls with
  | [] => ret tt
  | call :: rest =>
      fun w =>
        match call w with
        | (Ok _, w') => promise_all rest w'
        | (Throw e, w') => (Throw e, (promise_all rest w').2)
        end
  end.

Definition saveProductCardApiConfig (productId : string)
    (config : ProductCardApiConfig) : M unit :=
  let url := trim (url config) in
  let token := trim (token config) in
  let enabled := negb (negb (enabled config)) in
  promise_all
    [setSetting (keyOf productId FEnabled) (if enabled then "true" else "false");
     setSetting (keyOf productId FUrl) url;
     setSetting (keyOf productId FToken) token].

(** The [error] field is declared a string, and is one wherever the
    code writes it itself; the message of a failed insert is passed on
    as it is, whatever its type. *)
Record PullOutcome := {
  ok : bool;
  skipped : option bool;
  error : option JsValue;
  cardKey : option string
}.

Definition failure_value (code : JsValue) : PullOutcome :=
  {| ok := false; skipped := None; error := Some code; cardKey := None |}.

Definition failure (code : string) : PullOutcome := failure_value (JStr code).

Definition outcome_disabled : PullOutcome :=
  {| ok := false; skipped := Some true; error := Some (JStr "api_disabled");
     cardKey := None |}.

Definition success (key : string) : PullOutcome :=
  {| ok := true; skipped := None; error := None; cardKey := Some key |}.

Definition request_headers (config : ProductCardApiConfig) : list (string * string) :=
  [("Accept", "application/json, text/plain;q=0.9, */*;q=0.8")]
  ++ (if nonempty (token config)
      then [("Authorization", "Bearer " ++ token config)]
      else []).

(** The body as the orchestrator decodes it: JSON when the content type
    says so, the raw text otherwise. *)
Definition read_payload (response : Response) : Result JsValue :=
  let contentType :=
    toLowerCase (match content_type response with
                 | Some v => or_else v ""
                 | None => ""
                 end) in
  if includes contentType "application/json"
  then body_json response
  else match body_text response with
       | Ok text => Ok (JStr text)
       | Throw e => Throw e
       end.

Definition api_request (requestUrl : string) (config : ProductCardApiConfig) : Request :=
  {| req_url := requestUrl;
     req_method := "GET";
     req_headers := request_headers config;
     req_cache := "no-store" |}.

Definition pullOneCardFromApi (js : Builtins) (env : Env) (productId : string)
  : M PullOutcome :=
  config <- getProductCardApiConfig js productId ;;
  if negb (enabled config) then ret outcome_disabled
  else if negb (nonempty (url config)) then ret (failure "api_url_missing")
  else
    match resolveApiUrl env (url config) with
    | Throw _ => ret (failure "api_url_invalid")
    | Ok requestUrl =>
        response <- fetch env (api_request requestUrl config) ;;
        if negb (response_ok response)
        then ret (failure ("api_request_failed_" ++ of_N (status response)))
        else
          payload <- lift (read_payload response) ;;
          let cardKey := extractCardKey payload in
          if negb (nonempty cardKey) then ret (failure "api_card_missing")
          else
            caught <- try_catch
              (insert_card env {| card_productId := productId;
                                  card_cardKey := cardKey |} ;;;
               ret None)
              (fun error =>
                 duplicate <- lift (isUniqueConstraintError js error) ;;
                 if duplicate
                 then ret (Some (failure "api_card_duplicate"))
                 else ret (Some (failure_value (message_or error "api_insert_failed")))) ;;
            match caught with
            | Some outcome => ret outcome
            | None => ret (success cardKey)
            end
    end.

(** ** The update check ([update-check-client]) and its banner *)

(** [s.split(".")] *)
Fixpoint split_dot (s : string) : list string :=
  match s with
  | EmptyString => [EmptyString]
  | String c rest =>
      if Ascii.eqb c "." then EmptyString :: split_dot rest
      else
        match split_dot rest with
        | [] => [String c EmptyString]
        | part :: parts => String c part :: parts
        end
  end.

(** [parts[i] || 0] *)
Definition or_zero (part : option float) : float :=
  match part with
  | Some x => if truthy (JNum x) then x else 0%float
  | None => 0%float
  end.

(** The loop of [compareVersions] at index [i], with [steps] rounds to
    go. *)
Fixpoint compare_loop (partsA partsB : list float) (i steps : nat) : Z :=
  match steps with
  | O => 0
  | S steps' =>
      let partA := or_zero (partsA !! i) in
      let partB := or_zero (partsB !! i) in
      if (partB <? partA)%float then 1
      else if (partA <? partB)%float then -1
      else compare_loop partsA partsB (S i) steps'
  end%Z.

Definition compareVersions (js : Builtins) (a b : string) : Z :=
  let partsA := map (js_Number js) (split_dot a) in
  let partsB := map (js_Number js) (split_dot b) in
  compare_loop partsA partsB 0 (Nat.max (length partsA) (length partsB)).

(** [v?.name] for a name that no built-in prototype defines. *)
Definition member (name : string) (v : JsValue) : JsValue :=
  match v with
  | JObj fields => property name fields
  | _ => JUndefined
  end.

(** [v?.[0]] *)
Definition first_item (v : JsValue) : JsValue :=
  match v with
  | JArr items => match items with [] => JUndefined | x :: _ => x end
  | JStr s => match s with EmptyString => JUndefined | String c _ => JStr (String c EmptyString) end
  | JObj fields => property "0" fields
  | _ => JUndefined
  end.

(** [s.replace(/^v/, "")] *)
Definition strip_v (s : string) : string :=
  match s with
  | String c rest => if Ascii.eqb c "v" then rest else s
  | EmptyString => s
  end.

(** [new Error(message)] as a caught value. *)
Definition js_Error (message : string) : JsError :=
  mkJsError (JStr message) (Serialised_text "{}").

Module UpdateCheck.

Record ClientUpdateCheckResult := {
  hasUpdate : bool;
  currentVersion : string;
  latestVersion : option string;
  releaseUrl : JsValue;
  error : option JsValue
}.

Definition UPSTREAM_REPO : string := "chatgptuk/ldc-shop".

(** The two requests differ in their url only; no method is given, which
    makes them GET requests. *)
Definition github_request (url : string) : Request :=
  {| req_url := url;
     req_method := "GET";
     req_headers := [("Accept", "application/vnd.github.v3+json")];
     req_cache := "no-store" |}.

Definition checkForUpdatesClient (js : Builtins) (env : Env) (currentVersion : string)
  : M ClientUpdateCheckResult :=
  try_catch
    (releaseResponse <-
       fetch env (github_request
                    ("https://api.github.com/repos/" ++ UPSTREAM_REPO ++ "/releases/latest")) ;;
     if response_ok releaseResponse
     then
       release <- lift (body_json releaseResponse) ;;
       tag <- lift (js_String js (js_or (member "tag_name" release) (JStr ""))) ;;
       let latestVersion := strip_v tag in
       ret {| hasUpdate :=
                nonempty latestVersion
                && (0 <? compareVersions js latestVersion currentVersion)%Z;
              currentVersion := currentVersion;
              latestVersion := if nonempty latestVersion then Some latestVersion else None;
              releaseUrl :=
                js_or (member "html_url" release)
                  (JStr ("https://github.com/" ++ UPSTREAM_REPO ++ "/releases"));
              error := None |}
     else
       fromTags <-
         (if (status releaseResponse =? 404)%N
          then
            tagsResponse <-
              fetch env (github_request
                           ("https://api.github.com/repos/" ++ UPSTREAM_REPO ++ "/tags")) ;;
            if response_ok tagsResponse
            then
              tags <- lift (body_json tagsResponse) ;;
              tag <- lift (js_String js
                             (js_or (member "name" (first_item tags)) (JStr ""))) ;;
              let latestTag := strip_v tag in
              if negb (nonempty latestTag)
              then
                ret (Some {| hasUpdate := false;
                             currentVersion := currentVersion;
                             latestVersion := None;
                             releaseUrl := JStr ("https://github.com/" ++ UPSTREAM_REPO);
                             error := None |})
              else
                ret (Some {| hasUpdate :=
                               (0 <? compareVersions js latestTag currentVersion)%Z;
                             currentVersion := currentVersion;
                             latestVersion := Some latestTag;
                             releaseUrl := JStr ("https://github.com/" ++ UPSTREAM_REPO);
                             error := None |})
            else ret None
          else ret None) ;;
       match fromTags with
       | Some result => ret result
       | None =>
           throw (js_Error ("GitHub API error: " ++ of_N (status releaseResponse)))
       end)
    (fun error =>
       ret {| hasUpdate := false;
              currentVersion := currentVersion;
              latestVersion := None;
              releaseUrl := JNull;
              error := Some (message_or error "update_check_failed") |}).

(** The state of one mounted [UpdateNotification]: the two [useState]
    cells. *)
Record Banner := {
  updateInfo : option ClientUpdateCheckResult;
  dismissed : bool
}.

(** [useState(null)] and [useState(false)] at mount. *)
Definition mounted : Banner := {| updateInfo := None; dismissed := false |}.

(** The component renders the banner, not [null]. *)
Definition shown (b : Banner) : bool :=
  match updateInfo b with
  | Some info => hasUpdate info && negb (dismissed b)
  | None => false
  end.

(** [result.latestVersion !== dismissedVersion] *)
Definition differs (a b : option string) : bool :=
  match a, b with
  | Some x, Some y => negb (String.eqb x y)
  | None, None => false
  | _, _ => true
  end.

(** The effect of a mount: the dismissed version is read from the local
    storage first, the check runs, and its result is kept when it
    announces an update for another version than the dismissed one.  A
    rejection is only logged. *)
Definition run_effect (js : Builtins) (env : Env) (current : string)
    (storage : gmap string string) (b : Banner) : M Banner :=
  let dismissedVersion := storage !! "dismissed_update_version" in
  try_catch
    (result <- checkForUpdatesClient js env current ;;
     if hasUpdate result && differs (latestVersion result) dismissedVersion
     then ret {| updateInfo := Some result; dismissed := dismissed b |}
     else ret b)
    (fun _ => ret b).

(** [handleDismiss], reachable when the banner is shown. *)
Definition handleDismiss (storage : gmap string string) (b : Banner)
  : gmap string string * Banner :=
  match updateInfo b with
  | None => (storage, b)
  | Some info =>
      (match latestVersion info with
       | Some v =>
           if nonempty v then <["dismissed_update_version" := v]> storage else storage
       | None => storage
       end,
       {| updateInfo := updateInfo b; dismissed := true |})
  end.

End UpdateCheck.

(** ** Vocabulary of the properties *)

(** The first non-empty string of a list, the empty string if none. *)
Fixpoint firstNonEmpty (l : list string) : string :=
  match l with
  | [] => ""
  | s :: rest => if nonempty s then s else firstNonEmpty rest
  end.

(** [text] contains [pat] up to letter case: some substring of [text]
    lower-cases to [pat]. *)
Definition contains_ci (text pat : string) : Prop :=
  exists pre mid post, text = pre ++ mid ++ post /\ toLowerCase mid = pat.

(** The value stored under a key, the empty string when the key is
    missing or its value is null. *)
Definition stored (rows : gmap string (option string)) (key : string) : string :=
  match rows !! key with
  | Some (Some v) => v
  | _ => ""
  end.

(** The error of a settings read is the one of a missing settings
    table, as far as its text can be had. *)
Definition is_missing_table (js : Builtins) (e : JsError) : Result bool :=
  match error_text js e with
  | Throw thrown => Throw thrown
  | Ok text => Ok (includes text "no such table" && includes text "settings")
  end.

(** The world once the batched settings read of a product was issued. *)
Definition after_settings_read (productId : string) (w : World) : World :=
  record_event (EvSelectSettings ["cards_api_enabled_" ++ productId;
                                  "cards_api_url_" ++ productId;
                                  "cards_api_token_" ++ productId]) w.

(** The configuration a settings store resolves to for a product. *)
Definition resolved_config (js : Builtins) (st : SettingsTable) (productId : string)
  : Result ProductCardApiConfig :=
  match st with
  | SettingsRows rows =>
      Ok {| enabled :=
              match rows !! ("cards_api_enabled_" ++ productId) with
              | Some (Some v) => String.eqb v "true"
              | _ => false
              end;
            url := trim (stored rows ("cards_api_url_" ++ productId));
            token := trim (stored rows ("cards_api_token_" ++ productId)) |}
  | SettingsFault e =>
      match is_missing_table js e with
      | Throw thrown => Throw thrown
      | Ok true => Ok {| enabled := false; url := ""; token := "" |}
      | Ok false => Throw e
      end
  end.

(** One pull attempt step by step, with the world each step leaves
    behind: the settings read, the fetch, the insert. *)
Definition pull_steps (js : Builtins) (env : Env) (productId : string) (w : World)
  : Result PullOutcome * World :=
  let w1 := after_settings_read productId w in
  match resolved_config js (settings w) productId with
  | Throw e => (Throw e, w1)
  | Ok config =>
      if negb (enabled config) then (Ok outcome_disabled, w1)
      else if negb (nonempty (url config)) then (Ok (failure "api_url_missing"), w1)
      else
        match url_parse env (url config) with
        | Throw _ => (Ok (failure "api_url_invalid"), w1)
        | Ok requestUrl =>
            let w2 := record_event (EvFetch (api_request requestUrl config)) w1 in
            match http_fetch env (api_request requestUrl config) with
            | Throw e => (Throw e, w2)
            | Ok response =>
                if negb (response_ok response)
                then (Ok (failure ("api_request_failed_" ++ of_N (status response))), w2)
                else
                  match read_payload response with
                  | Throw e => (Throw e, w2)
                  | Ok payload =>
                      let key := extractCardKey payload in
                      let row := {| card_productId := productId; card_cardKey := key |} in
                      let w3 := record_event (EvInsertCard row) w2 in
                      if negb (nonempty key) then (Ok (failure "api_card_missing"), w2)
                      else
                        match cards_verdict env (cards w) row with
                        | Some e =>
                            (match isUniqueConstraintError js e with
                             | Throw thrown => Throw thrown
                             | Ok true => Ok (failure "api_card_duplicate")
                             | Ok false =>
                                 Ok (failure_value (message_or e "api_insert_failed"))
                             end, w3)
                        | None => (Ok (success key), store_card row w3)
                        end
                  end
            end
        end
  end.

(** What one pull attempt returns or throws. *)
Definition pull_result (js : Builtins) (env : Env) (productId : string) (w : World)
  : Result PullOutcome :=
  (pullOneCardFromApi js env productId w).1.

(** The world one pull attempt leaves behind. *)
Definition pull_world (js : Builtins) (env : Env) (productId : string) (w : World)
  : World :=
  (pullOneCardFromApi js env productId w).2.

(** A string that occurs in a payload: the payload itself, an element
    of an array, or the value of a property. *)
Inductive string_leaf (s : string) : JsValue -> Prop :=
| leaf_here : string_leaf s (JStr s)
| leaf_item (items : list JsValue) (item : JsValue) :
    item ∈ items -> string_leaf s item -> string_leaf s (JArr items)
| leaf_field (fields : list (string * JsValue)) (k : string) (v : JsValue) :
    (k, v) ∈ fields -> string_leaf s v -> string_leaf s (JObj fields).

(** The seven keys the extractor looks at. *)
Definition probedKeys : list string := directKeys ++ nestedKeys.

(** The collaborator calls made between two worlds. *)
Definition new_events (w w' : World) : list Event :=
  drop (length (trace w)) (trace w').

(** The events of one kind in a trace. *)
Definition fetches (tr : list Event) : list Request :=
  omap (fun ev => match ev with EvFetch req => Some req | _ => None end) tr.

Definition inserts (tr : list Event) : list Card :=
  omap (fun ev => match ev with EvInsertCard row => Some row | _ => None end) tr.

(** What one update check returns, and the world it leaves behind. *)
Definition check_result (js : Builtins) (env : Env) (current : string) (w : World)
  : Result UpdateCheck.ClientUpdateCheckResult :=
  (UpdateCheck.checkForUpdatesClient js env current w).1.

Definition check_world (js : Builtins) (env : Env) (current : string) (w : World) : World :=
  (UpdateCheck.checkForUpdatesClient js env current w).2.

(** The result of a check that failed with a message. *)
Definition failed_check (current : string) (message : JsValue)
  : UpdateCheck.ClientUpdateCheckResult :=
  {| UpdateCheck.hasUpdate := false;
     UpdateCheck.currentVersion := current;
     UpdateCheck.latestVersion := None;
     UpdateCheck.releaseUrl := JNull;
     UpdateCheck.error := Some message |}.

Definition releases_request : Request :=
  UpdateCheck.github_request "https://api.github.com/repos/chatgptuk/ldc-shop/releases/latest".

Definition tags_request : Request :=
  UpdateCheck.github_request "https://api.github.com/repos/chatgptuk/ldc-shop/tags".

(** ** Sample stores and upstreams *)

(** A thrown [Error] (its own properties are not enumerable) or a thrown
    empty object: either serialises to an empty object. *)
Definition sample_error (message : option string) : JsError :=
  mkJsError (match message with Some m => JStr m | None => JUndefined end)
    (Serialised_text "{}").

(** A thrown value that refers to itself: serialising it throws a
    [TypeError]. *)
Definition cyclic_error (message : JsValue) : JsError :=
  mkJsError message
    (Serialised_throws (sample_error (Some "Converting circular structure to JSON"))).

(** A stand-in for the URL parser: absolute https URLs are accepted, as
    they are. *)
Definition sample_url_parse (s : string) : Result string :=
  if String.prefix "https://" s then Ok s
  else Throw (sample_error (Some "Invalid URL")).

Definition sample_env (upstream : Result Response) (verdict : option JsError) : Env :=
  {| url_parse := sample_url_parse;
     http_fetch := fun _ => upstream;
     cards_verdict := fun _ _ => verdict |}.

(** A store that holds the enabled flag and the url of product [p1]. *)
Definition sample_world (flag url : string) : World :=
  {| settings :=
       SettingsRows (<["cards_api_enabled_p1" := Some flag]>
                       (<["cards_api_url_p1" := Some url]> ∅));
     cards := [];
     trace := [] |}.

Definition text_response (code : N) (body : string) : Response :=
  {| status := code;
     content_type := Some "text/plain";
     body_json := Throw (sample_error (Some "Unexpected token"));
     body_text := Ok body |}.

Definition json_response (code : N) (body : JsValue) : Response :=
  {| status := code;
     content_type := Some "application/json; charset=utf-8";
     body_json := Ok body;
     body_text := Ok "" |}.

Definition sample_row (key : string) : Card :=
  {| card_productId := "p1"; card_cardKey := key |}.

(** A cards table that rejects a row it holds already, as a unique
    index does. *)
Definition unique_verdict (table : list Card) (row : Card) : option JsError :=
  if existsb (fun held => String.eqb (card_productId held) (card_productId row)
                          && String.eqb (card_cardKey held) (card_cardKey row)) table
  then Some (sample_error (Some "UNIQUE constraint failed: cards.card_key"))
  else None.

(** A stand-in for [Number]: it agrees with it on the empty string and
    on short strings of decimal digits, and is NaN elsewhere. *)
Fixpoint digits_value (acc : Z) (s : string) : option Z :=
  match s with
  | EmptyString => Some acc
  | String c rest =>
      let n := N_of_ascii c in
      if ((48 <=? n) && (n <=? 57))%N
      then digits_value (10 * acc + Z.of_N (n - 48)) rest
      else None
  end.

Definition sample_number (s : string) : float :=
  match digits_value 0 s with
  | Some n => PrimFloat.of_uint63 (Uint63.of_Z n)
  | None => PrimFloat.nan
  end.

Definition sample_builtins : Builtins :=
  {| js_Number := sample_number;
     js_number_text := fun _ => "NaN";
     js_not_primitive := sample_error (Some "Cannot convert object to primitive value") |}.

(** An upstream that answers the two requests of the update check. *)
Definition github_env (releases tags : Result Response) : Env :=
  {| url_parse := sample_url_parse;
     http_fetch := fun req =>
       if String.eqb (req_url req)
            "https://api.github.com/repos/chatgptuk/ldc-shop/releases/latest"
       then releases else tags;
     cards_verdict := fun _ _ => None |}.

Definition empty_world : World :=
  {| settings := SettingsRows ∅; cards := []; trace := [] |}.

(** Induction on a payload with the hypothesis for every element of an
    array and every property value of an object. *)
Section PayloadInduction.
Variable P : JsValue -> Prop.
Hypothesis P_undefined : P JUndefined.
Hypothesis P_null : P JNull.
Hypothesis P_bool : forall b, P (JBool b).
Hypothesis P_num : forall x, P (JNum x).
Hypothesis P_str : forall s, P (JStr s).
Hypothesis P_arr : forall items, Forall P items -> P (JArr items).
Hypothesis P_obj : forall fields, Forall (fun kv => P kv.2) fields -> P (JObj fields).

Fixpoint JsValue_nested_ind (v : JsValue) : P v :=
  match v with
  | JUndefined => P_undefined
  | JNull => P_null
  | JBool b => P_bool b
  | JNum x => P_num x
  | JStr s => P_str s
  | JArr items =>
      P_arr items
        ((fix all (l : list JsValue) : Forall P l :=
            match l with
            | [] => @List.Forall_nil _ P
            | x :: rest => @List.Forall_cons _ P x rest (JsValue_nested_ind x) (all rest)
            end) items)
  | JObj fields =>
      P_obj fields
        ((fix all (l : list (string * JsValue)) : Forall (fun kv => P kv.2) l :=
            match l with
            | [] => @List.Forall_nil _ _
            | kv :: rest =>
                @List.Forall_cons _ (fun kv => P kv.2) kv rest
                  (match kv as p return P p.2 with
                   | (_, x) => JsValue_nested_ind x
                   end)
                  (all rest)
            end) fields)
  end.
End PayloadInduction.

(** ** Facts about the string built-ins *)

Section StringFacts.

Lemma nonempty_true (s : string) : nonempty s = true <-> s <> "".
Proof. destruct s; simpl; split; congruence. Qed.

Lemma or_else_empty (s : string) : or_else s "" = s.
Proof. by destruct s. Qed.

Lemma trimStart_shape (s : string) :
  trimStart s = "" \/ exists c rest, trimStart s = String c rest /\ is_space c = false.
Proof.
  induction s as [|c s IH]; simpl; [by left|].
  destruct (is_space c) eqn:Hc; [exact IH|].
  right. by exists c, s.
Qed.

Lemma trimStart_fixed (c : ascii) (rest : string) :
  is_space c = false -> trimStart (String c rest) = String c rest.
Proof. intros Hc. simpl. by rewrite Hc. Qed.

Lemma trimEnd_keeps_head (c : ascii) (rest : string) :
  is_space c = false -> exists kept, trimEnd (String c rest) = String c kept.
Proof.
  intros Hc. simpl. destruct (trimEnd rest) as [|c' kept].
  - rewrite Hc. by exists "".
  - by exists (String c' kept).
Qed.

Lemma trimEnd_idempotent (s : string) : trimEnd (trimEnd s) = trimEnd s.
Proof.
  induction s as [|c s IH]; simpl; [done|].
  destruct (trimEnd s) as [|c' kept] eqn:Hs.
  - destruct (is_space c) eqn:Hc; simpl; [done|]. by rewrite Hc.
  - change (trimEnd (String c (String c' kept))) with
      (match trimEnd (String c' kept) with
       | "" => if is_space c then "" else String c ""
       | k => String c k
       end).
    by rewrite IH.
Qed.

Lemma trim_idempotent (s : string) : trim (trim s) = trim s.
Proof.
  unfold trim. destruct (trimStart_shape s) as [->|(c & rest & -> & Hc)]; [done|].
  destruct (trimEnd_keeps_head c rest Hc) as [kept Hk].
  rewrite Hk, (trimStart_fixed _ _ Hc), <- Hk. apply trimEnd_idempotent.
Qed.

Lemma append_cons (c : ascii) (s t : string) : (String c s ++ t = String c (s ++ t))%string.
Proof. reflexivity. Qed.

(** A trimmed string neither starts nor ends with white space. *)
Lemma trim_first_char (s : string) (c : ascii) (rest : string) :
  trim s = String c rest -> is_space c = false.
Proof.
  unfold trim. destruct (trimStart_shape s) as [->|(c0 & r0 & -> & Hc0)]; [done|].
  destruct (trimEnd_keeps_head c0 r0 Hc0) as [kept ->]. by intros [= <- _].
Qed.

Lemma trimEnd_last_char (s front : string) (c : ascii) :
  (trimEnd s = front ++ String c "")%string -> is_space c = false.
Proof.
  revert front. induction s as [|a s IH]; intros front; simpl.
  - by destruct front.
  - destruct (trimEnd s) as [|k0 kept].
    + destruct (is_space a) eqn:Ha; destruct front as [|x [|y front]]; try done.
      by intros [= <-].
    + destruct front as [|x front]; [done|].
      rewrite append_cons. intros [= _ Hrest]. by apply (IH front).
Qed.

Lemma trim_last_char (s front : string) (c : ascii) :
  (trim s = front ++ String c "")%string -> is_space c = false.
Proof. apply trimEnd_last_char. Qed.

Lemma prefix_spec (pat s : string) :
  String.prefix pat s = true <-> exists post, (s = pat ++ post)%string.
Proof.
  revert pat. induction s as [|b s IH]; intros [|a pat]; simpl.
  - split; [by exists ""|done].
  - split; [done|]. intros [post H]. by rewrite append_cons in H.
  - split; [|done]. intros _. by exists (String b s).
  - destruct (ascii_dec a b) as [->|Hne].
    + rewrite IH. split; intros [post H]; exists post.
      * by rewrite append_cons, H.
      * rewrite append_cons in H. by injection H.
    + split; [done|]. intros [post H].
      rewrite append_cons in H. injection H as Hab _. by destruct Hne.
Qed.

Lemma includes_unfold (s pat : string) :
  includes s pat =
  String.prefix pat s
  || match s with "" => false | String _ rest => includes rest pat end.
Proof. by destruct s. Qed.

Lemma includes_spec (s pat : string) :
  includes s pat = true <-> exists pre post, (s = pre ++ pat ++ post)%string.
Proof.
  induction s as [|c s IH]; rewrite includes_unfold, orb_true_iff, prefix_spec.
  - split.
    + intros [[post H]|H]; [|done]. by exists "", post.
    + intros ([|x pre] & post & H); [|by rewrite append_cons in H].
      left. by exists post.
  - rewrite IH. split.
    + intros [[post H]|(pre & post & H)].
      * by exists "", post.
      * exists (String c pre), post. by rewrite append_cons, H.
    + intros ([|x pre] & post & H).
      * left. by exists post.
      * right. rewrite append_cons in H. injection H as _ H. by exists pre, post.
Qed.

Lemma toLowerCase_app (a b : string) :
  (toLowerCase (a ++ b) = toLowerCase a ++ toLowerCase b)%string.
Proof.
  induction a as [|c a IH]; [done|].
  rewrite append_cons. simpl. by rewrite IH, append_cons.
Qed.

Lemma toLowerCase_split (t a b : string) :
  (toLowerCase t = a ++ b)%string ->
  exists ta tb, (t = ta ++ tb)%string /\ toLowerCase ta = a /\ toLowerCase tb = b.
Proof.
  revert t. induction a as [|x a IH]; intros t H.
  - by exists "", t.
  - destruct t as [|c t]; [by rewrite append_cons in H|].
    rewrite append_cons in H. simpl in H. injection H as Hx Ht.
    destruct (IH _ Ht) as (ta & tb & -> & Ha & Hb).
    exists (String c ta), tb. split; [done|]. split; [|done].
    simpl. by rewrite Hx, Ha.
Qed.

(** Searching the lower-cased text is searching up to letter case. *)
Lemma includes_lower_ci (text pat : string) :
  includes (toLowerCase text) pat = true <-> contains_ci text pat.
Proof.
  rewrite includes_spec. unfold contains_ci. split.
  - intros (pre & post & H).
    destruct (toLowerCase_split _ _ _ H) as (tpre & rest & -> & _ & Hrest).
    destruct (toLowerCase_split _ _ _ Hrest) as (mid & tpost & -> & Hmid & _).
    by exists tpre, mid, tpost.
  - intros (pre & mid & post & -> & <-).
    exists (toLowerCase pre), (toLowerCase post).
    by rewrite !toLowerCase_app.
Qed.

End StringFacts.

(** ** Facts about the extractor *)

Section ExtractorFacts.

Lemma extractCardKey_string (s : string) : extractCardKey (JStr s) = trim s.
Proof. by destruct s. Qed.

(** The array branch is the left-to-right scan for a non-empty result. *)
Lemma extractCardKey_array (items : list JsValue) :
  extractCardKey (JArr items) = firstNonEmpty (map extractCardKey items).
Proof.
  induction items as [|item rest IH]; [done|].
  change (extractCardKey (JArr (item :: rest))) with
    (if nonempty (extractCardKey item) then extractCardKey item
     else extractCardKey (JArr rest)).
  by rewrite IH.
Qed.

(** The innermost loop reads the property and extracts from it. *)
Lemma extractCardKey_read (k : string) (fields : list (string * JsValue)) :
  (fix read (fs : list (string * JsValue)) : string :=
     match fs with
     | [] => ""
     | (k', v) :: fs' => if String.eqb k' k then extractCardKey v else read fs'
     end) fields = extractCardKey (property k fields).
Proof.
  induction fields as [|[k' v] rest IH]; [done|].
  simpl property. destruct (String.eqb k' k); [done|]. exact IH.
Qed.

(** The object branch: the direct keys first, the nested keys after. *)
Lemma extractCardKey_object (fields : list (string * JsValue)) :
  extractCardKey (JObj fields) =
  match probeDirect fields directKeys with
  | Some v => v
  | None => firstNonEmpty (map (fun k => extractCardKey (property k fields)) nestedKeys)
  end.
Proof.
  change (extractCardKey (JObj fields)) with
    (match probeDirect fields directKeys with
     | Some v => v
     | None =>
         (fix probe (keys : list string) : string :=
            match keys with
            | [] => ""
            | k :: keys' =>
                let value :=
                  (fix read (fs : list (string * JsValue)) : string :=
                     match fs with
                     | [] => ""
                     | (k', v) :: fs' =>
                         if String.eqb k' k then extractCardKey v else read fs'
                     end) fields in
                if nonempty value then value else probe keys'
            end) nestedKeys
     end).
  destruct (probeDirect fields directKeys); [done|].
  unfold nestedKeys. simpl map. simpl firstNonEmpty.
  by rewrite !extractCardKey_read.
Qed.

Lemma firstNonEmpty_trimmed (l : list string) :
  Forall (fun s => trim s = s) l -> trim (firstNonEmpty l) = firstNonEmpty l.
Proof.
  induction 1 as [|s l Hs _ IH]; [done|].
  simpl. by destruct (nonempty s).
Qed.

Lemma probeDirect_trimmed (fields : list (string * JsValue)) (keys : list string) (v : string) :
  probeDirect fields keys = Some v -> trim v = v /\ v <> "".
Proof.
  induction keys as [|k keys IH]; [done|].
  simpl. destruct (property k fields) as [| | | |s| |]; try exact IH.
  destruct (nonempty (trim s)) eqn:Hs; [|exact IH].
  intros [= <-]. split; [apply trim_idempotent|by apply nonempty_true].
Qed.

(** Whatever the branch, the extractor returns a trimmed string. *)
Lemma extractCardKey_trimmed (payload : JsValue) :
  trim (extractCardKey payload) = extractCardKey payload.
Proof.
  induction payload as [| | b | x | s | items IH | fields IH] using JsValue_nested_ind.
  - done.
  - done.
  - by destruct b.
  - simpl. by destruct (negb _).
  - rewrite extractCardKey_string. apply trim_idempotent.
  - rewrite extractCardKey_array. apply firstNonEmpty_trimmed.
    by apply Forall_fmap.
  - rewrite extractCardKey_object.
    destruct (probeDirect fields directKeys) as [v|] eqn:Hd.
    + by apply probeDirect_trimmed in Hd as [? _].
    + apply firstNonEmpty_trimmed, Forall_fmap, Forall_forall.
      intros k _. simpl. clear Hd.
      induction IH as [|[k' v] rest Hv _ IHrest]; [done|].
      simpl in Hv. simpl property.
      destruct (String.eqb k' k); [exact Hv|exact IHrest].
Qed.

End ExtractorFacts.

(** ** Facts about the configuration resolver *)

Section ResolverFacts.

Lemma keyOf_enabled (productId : string) :
  keyOf productId FEnabled = "cards_api_enabled_" ++ productId.
Proof. reflexivity. Qed.

Lemma keyOf_url (productId : string) :
  keyOf productId FUrl = "cards_api_url_" ++ productId.
Proof. reflexivity. Qed.

Lemma keyOf_token (productId : string) :
  keyOf productId FToken = "cards_api_token_" ++ productId.
Proof. reflexivity. Qed.

(** Building the result object from rows with pairwise different keys. *)
Lemma settings_fold_lookup (rows : list (string * option string))
    (acc : gmap string string) (k : string) :
  NoDup rows.*1 ->
  (forall v, (k, v) ∈ rows ->
     foldl (fun (map : gmap string string) row =>
              <[row.1 := value_or_empty row.2]> map) acc rows !! k
     = Some (value_or_empty v))
  /\ (k ∉ rows.*1 ->
      foldl (fun (map : gmap string string) row =>
               <[row.1 := value_or_empty row.2]> map) acc rows !! k
      = acc !! k).
Proof.
  revert acc. induction rows as [|[k0 v0] rows IH]; intros acc Hnd.
  - split; [intros v Hin; by apply elem_of_nil in Hin|done].
  - apply NoDup_cons in Hnd as [Hk0 Hnd]. simpl in Hk0.
    destruct (IH (<[k0 := value_or_empty v0]> acc) Hnd) as [IHin IHout].
    split.
    + intros v Hin. apply elem_of_cons in Hin as [[= -> ->]|Hin].
      * simpl. rewrite IHout by done. apply lookup_insert_eq.
      * simpl. by apply IHin.
    + intros Hout. apply not_elem_of_cons in Hout as [Hne Hout].
      simpl. rewrite IHout by done. by apply lookup_insert_ne.
Qed.

(** What the batched read yields for a requested key. *)
Lemma settings_values_lookup (rows : gmap string (option string))
    (keys : list string) (k : string) :
  k ∈ keys ->
  foldl (fun (map : gmap string string) row =>
           <[row.1 := value_or_empty row.2]> map) ∅
    (filter (fun row : string * option string => row.1 ∈ keys) (map_to_list rows)) !! k
  = value_or_empty <$> rows !! k.
Proof.
  intros Hk.
  assert (NoDup (filter (fun row : string * option string => row.1 ∈ keys)
                   (map_to_list rows)).*1) as Hnd.
  { apply (sublist_NoDup _ (map_to_list rows).*1).
    - apply NoDup_fst_map_to_list.
    - apply fmap_sublist, sublist_filter. }
  destruct (settings_fold_lookup _ ∅ k Hnd) as [Hin Hout].
  destruct (rows !! k) as [v|] eqn:Hrow; simpl.
  - apply Hin, list_elem_of_filter. split; [done|].
    by apply elem_of_map_to_list.
  - rewrite Hout; [apply lookup_empty|].
    intros Hfst. apply list_elem_of_fmap in Hfst as ([k' v] & -> & Hmem).
    apply list_elem_of_filter in Hmem as [_ Hmem].
    apply elem_of_map_to_list in Hmem. simpl in Hrow. congruence.
Qed.

Lemma message_text_string (js : Builtins) (message : string) (json : Serialised) :
  message_text js (mkJsError (JStr message) json) = Ok message.
Proof. unfold message_text, message_or, js_or. simpl. by destruct message. Qed.

Lemma message_text_undefined (js : Builtins) (json : Serialised) :
  message_text js (mkJsError JUndefined json) = Ok "".
Proof. reflexivity. Qed.

(** One run of the resolver: a single batched read, then the
    configuration derived from the store. *)
Lemma getProductCardApiConfig_run (js : Builtins) (productId : string) (w : World) :
  getProductCardApiConfig js productId w
  = (resolved_config js (settings w) productId, after_settings_read productId w).
Proof.
  unfold getProductCardApiConfig, getSettingsUncached, select_settings,
    try_catch, bind, emit, ret, throw, lift, after_settings_read.
  rewrite !keyOf_enabled, !keyOf_url, !keyOf_token.
  destruct w as [st cs tr]. simpl settings. destruct st as [rows|e]; simpl.
  - rewrite !settings_values_lookup by (rewrite !elem_of_cons; tauto).
    unfold stored.
    destruct (rows !! ("cards_api_enabled_" ++ productId)) as [[v1|]|];
      destruct (rows !! ("cards_api_url_" ++ productId)) as [[v2|]|];
      destruct (rows !! ("cards_api_token_" ++ productId)) as [[v3|]|];
      simpl; by rewrite ?or_else_empty.
  - unfold is_missing_table.
    destruct (error_text js e) as [text|thrown]; [|done].
    by destruct (includes text "no such table" && includes text "settings").
Qed.

Lemma resolved_config_trimmed (js : Builtins) (st : SettingsTable) (productId : string)
    (config : ProductCardApiConfig) :
  resolved_config js st productId = Ok config -> trim (url config) = url config.
Proof.
  destruct st as [rows|e]; simpl.
  - intros [= <-]. apply trim_idempotent.
  - destruct (is_missing_table js e) as [[]|]; [|done|done]. by intros [= <-].
Qed.

End ResolverFacts.

(** ** One run of the orchestrator *)

Section OrchestratorFacts.

(** The URL of a resolved configuration is trimmed already, so that
    normalising it is parsing it. *)
Lemma resolveApiUrl_trimmed (env : Env) (rawUrl : string) :
  trim rawUrl = rawUrl -> nonempty rawUrl = true ->
  resolveApiUrl env rawUrl = url_parse env rawUrl.
Proof.
  intros Ht Hn. unfold resolveApiUrl. by rewrite Ht, Hn.
Qed.

Lemma pullOneCardFromApi_run (js : Builtins) (env : Env) (productId : string) (w : World) :
  pullOneCardFromApi js env productId w = pull_steps js env productId w.
Proof.
  unfold pullOneCardFromApi, pull_steps, bind at 1.
  rewrite getProductCardApiConfig_run.
  destruct (resolved_config js (settings w) productId) as [config|e] eqn:Hcfg; [|done].
  destruct (enabled config); cbn [negb]; [|done].
  destruct (nonempty (url config)) eqn:Hurl; cbn [negb]; [|done].
  rewrite (resolveApiUrl_trimmed env _ (resolved_config_trimmed _ _ _ _ Hcfg) Hurl).
  destruct (url_parse env (url config)) as [requestUrl|e]; [|done].
  unfold fetch, bind, emit, lift.
  destruct (http_fetch env (api_request requestUrl config)) as [response|e]; [|done].
  destruct (response_ok response); cbn [negb]; [|done].
  destruct (read_payload response) as [payload|e]; [|done].
  destruct (nonempty (extractCardKey payload)); cbn [negb]; [|done].
  unfold try_catch, insert_card, bind, emit, ret. simpl cards.
  destruct (cards_verdict env (cards w) _) as [e|]; [|done].
  by destruct (isUniqueConstraintError js e) as [[]|].
Qed.

Lemma new_events_app (w w' : World) (evs : list Event) :
  trace w' = (trace w ++ evs)%list -> new_events w w' = evs.
Proof. intros H. unfold new_events. by rewrite H, drop_app_length. Qed.

Lemma new_events_settings_read (productId : string) (w : World) :
  new_events w (after_settings_read productId w)
  = [EvSelectSettings [("cards_api_enabled_" ++ productId)%string;
                       ("cards_api_url_" ++ productId)%string;
                       ("cards_api_token_" ++ productId)%string]].
Proof. by apply new_events_app. Qed.

Lemma new_events_fetch (productId : string) (w : World) (req : Request) :
  new_events w (record_event (EvFetch req) (after_settings_read productId w))
  = [EvSelectSettings [("cards_api_enabled_" ++ productId)%string;
                       ("cards_api_url_" ++ productId)%string;
                       ("cards_api_token_" ++ productId)%string];
     EvFetch req].
Proof. apply new_events_app. simpl. by rewrite <- app_assoc. Qed.

Lemma new_events_insert (productId : string) (w : World) (req : Request) (row : Card) :
  new_events w (record_event (EvInsertCard row)
                  (record_event (EvFetch req) (after_settings_read productId w)))
  = [EvSelectSettings [("cards_api_enabled_" ++ productId)%string;
                       ("cards_api_url_" ++ productId)%string;
                       ("cards_api_token_" ++ productId)%string];
     EvFetch req; EvInsertCard row].
Proof. apply new_events_app. simpl. by rewrite <- !app_assoc. Qed.

Lemma new_events_stored (productId : string) (w : World) (req : Request) (row : Card) :
  new_events w (store_card row
                  (record_event (EvInsertCard row)
                     (record_event (EvFetch req) (after_settings_read productId w))))
  = [EvSelectSettings [("cards_api_enabled_" ++ productId)%string;
                       ("cards_api_url_" ++ productId)%string;
                       ("cards_api_token_" ++ productId)%string];
     EvFetch req; EvInsertCard row].
Proof. apply new_events_app. simpl. by rewrite <- !app_assoc. Qed.

End OrchestratorFacts.

(** ** Properties of the card key extractor *)

Section ExtractorProperties.

Lemma probeDirect_first (fields : list (string * JsValue))
    (before : list string) (k : string) (after : list string) (s : string) :
  property k fields = JStr s -> trim s <> "" ->
  (forall k' s', k' ∈ before -> property k' fields = JStr s' -> trim s' = "") ->
  probeDirect fields (before ++ k :: after)%list = Some (trim s).
Proof.
  intros Hk Hs. induction before as [|k0 before IH]; intros Hbefore; simpl.
  - rewrite Hk. by apply nonempty_true in Hs as ->.
  - destruct (property k0 fields) as [| | | |s0| |] eqn:Hk0;
      try (apply IH; intros k' s' Hin; apply Hbefore; by right).
    rewrite (Hbefore k0 s0) by (done || by left). simpl.
    apply IH. intros k' s' Hin. apply Hbefore. by right.
Qed.

Lemma probeDirect_none (fields : list (string * JsValue)) (keys : list string) :
  (forall k s, k ∈ keys -> property k fields = JStr s -> trim s = "") ->
  probeDirect fields keys = None.
Proof.
  induction keys as [|k keys IH]; intros Hall; [done|]. simpl.
  destruct (property k fields) as [| | | |s| |] eqn:Hk;
    try (apply IH; intros k' s' Hin; apply Hall; by right).
  rewrite (Hall k s) by (done || by left). simpl.
  apply IH. intros k' s' Hin. apply Hall. by right.
Qed.

(** C3.  For an object payload, the first of the keys cardKey, card,
    key, code (in that priority) that is bound to a string with a
    non-empty trim decides the result, the trimmed string, whatever the
    object holds under data, result or item; and the nested keys data,
    result, item are consulted, in that order, only when no direct key
    is bound to such a string. *)
Theorem extractCardKey_direct_precedence (fields : list (string * JsValue)) :
  (forall (before : list string) k after s,
     ["cardKey"; "card"; "key"; "code"] = (before ++ k :: after)%list ->
     property k fields = JStr s -> trim s <> "" ->
     (forall k' s', k' ∈ before -> property k' fields = JStr s' -> trim s' = "") ->
     extractCardKey (JObj fields) = trim s)
  /\ ((forall k s, k ∈ ["cardKey"; "card"; "key"; "code"] ->
                  property k fields = JStr s -> trim s = "") ->
      extractCardKey (JObj fields)
      = firstNonEmpty [extractCardKey (property "data" fields);
                       extractCardKey (property "result" fields);
                       extractCardKey (property "item" fields)]).
Proof.
  split.
  - intros before k after s Hkeys Hk Hs Hbefore.
    rewrite extractCardKey_object. unfold directKeys. rewrite Hkeys.
    by rewrite (probeDirect_first fields before k after s).
  - intros Hnone. rewrite extractCardKey_object.
    by rewrite (probeDirect_none fields directKeys Hnone).
Qed.

Lemma extractCardKey_direct_precedence_witness :
  extractCardKey (JObj [("data", JObj [("code", JStr "NESTED")]);
                        ("card", JStr "   ");
                        ("code", JStr "LATER");
                        ("key", JStr " K-1 ")]) = "K-1".
Proof.
  apply (proj1 (extractCardKey_direct_precedence _) ["cardKey"; "card"] "key" ["code"] " K-1 ").
  - reflexivity.
  - reflexivity.
  - vm_compute. discriminate.
  - intros k' s' Hin Hk'.
    apply elem_of_cons in Hin as [->|Hin].
    + vm_compute in Hk'. discriminate Hk'.
    + apply list_elem_of_singleton in Hin as ->.
      vm_compute in Hk'. injection Hk' as <-. reflexivity.
Defined.

(** C4.  A non-empty string payload is returned trimmed; a number, a
    boolean, null, undefined and the empty string yield the empty
    string. *)
Theorem extractCardKey_scalars :
  (forall s, s <> "" -> extractCardKey (JStr s) = trim s)
  /\ (forall x, extractCardKey (JNum x) = "")
  /\ (forall b, extractCardKey (JBool b) = "")
  /\ extractCardKey JNull = ""
  /\ extractCardKey JUndefined = ""
  /\ extractCardKey (JStr "") = "".
Proof.
  repeat split; try reflexivity.
  - intros s _. apply extractCardKey_string.
  - intros x. simpl. by destruct (negb _).
  - intros b. by destruct b.
Qed.

Lemma extractCardKey_scalars_witness : extractCardKey (JStr "  AB 12  ") = "AB 12".
Proof.
  rewrite (proj1 extractCardKey_scalars "  AB 12  "); [reflexivity|discriminate].
Defined.

Lemma firstNonEmpty_leftmost (pre : list string) (s : string) (post : list string) :
  Forall (fun t => t = "") pre -> s <> "" -> firstNonEmpty (pre ++ s :: post)%list = s.
Proof.
  intros Hpre Hs. induction Hpre as [|t pre -> _ IH]; simpl.
  - by apply nonempty_true in Hs as ->.
  - exact IH.
Qed.

Lemma firstNonEmpty_none (l : list string) :
  Forall (fun t => t = "") l -> firstNonEmpty l = "".
Proof. induction 1 as [|t l -> _ IH]; [done|exact IH]. Qed.

(** C5.  For an array payload the result is the extraction of the
    leftmost element whose extraction is non-empty, and the empty string
    when no element has a non-empty extraction. *)
Theorem extractCardKey_array_leftmost (items : list JsValue) :
  (forall (pre : list JsValue) p post,
     items = (pre ++ p :: post)%list ->
     Forall (fun q => extractCardKey q = "") pre ->
     extractCardKey p <> "" ->
     extractCardKey (JArr items) = extractCardKey p)
  /\ (Forall (fun q => extractCardKey q = "") items ->
      extractCardKey (JArr items) = "").
Proof.
  split.
  - intros pre p post -> Hpre Hp. rewrite extractCardKey_array.
    rewrite map_app. simpl map. apply firstNonEmpty_leftmost; [|done].
    by apply Forall_fmap.
  - intros Hall. rewrite extractCardKey_array.
    apply firstNonEmpty_none. by apply Forall_fmap.
Qed.

Lemma extractCardKey_array_leftmost_witness :
  extractCardKey (JArr [JNull; JStr "  "; JObj [("key", JStr " k1 ")]; JStr "z"])
  = extractCardKey (JObj [("key", JStr " k1 ")]).
Proof.
  apply (proj1 (extractCardKey_array_leftmost _) [JNull; JStr "  "] _ [JStr "z"]).
  - reflexivity.
  - repeat constructor.
  - vm_compute. discriminate.
Defined.

End ExtractorProperties.

(** ** Properties of the configuration resolver *)

Section ResolverProperties.

Lemma error_text_inspect (js : Builtins) (e : JsError) (message json : string) :
  message_text js e = Ok message -> err_json e = Serialised_text json ->
  error_text js e = Ok (toLowerCase (message ++ json)).
Proof. intros Hm Hj. unfold error_text. by rewrite Hm, Hj. Qed.

(** C7, as the code has it.  Whatever the settings table holds,
    resolving the configuration of a product issues one read for the
    three keys cards_api_enabled_<id>, cards_api_url_<id>,
    cards_api_token_<id> and returns a configuration that is enabled
    exactly when the enabled key holds the string true, whose url and
    token are the stored values trimmed, and where a missing key counts
    as false, respectively as the empty string.  A store whose read
    fails returns a configuration only when the text of the error
    mentions no such table and settings: then every key counts as
    missing.  On any other failure no configuration is returned: the
    error of the read is thrown, or the error met while its text was
    being put together. *)
Theorem getProductCardApiConfig_reads_store (js : Builtins) (productId : string)
    (cs : list Card) (tr : list Event) :
  (forall rows : gmap string (option string),
     exists config,
       getProductCardApiConfig js productId
         {| settings := SettingsRows rows; cards := cs; trace := tr |}
       = (Ok config,
          {| settings := SettingsRows rows; cards := cs;
             trace := tr ++ [EvSelectSettings ["cards_api_enabled_" ++ productId;
                                               "cards_api_url_" ++ productId;
                                               "cards_api_token_" ++ productId]] |})
       /\ (enabled config = true
           <-> rows !! ("cards_api_enabled_" ++ productId) = Some (Some "true"))
       /\ url config = trim (stored rows ("cards_api_url_" ++ productId))
       /\ token config = trim (stored rows ("cards_api_token_" ++ productId))
       /\ (rows !! ("cards_api_enabled_" ++ productId) = None -> enabled config = false)
       /\ (rows !! ("cards_api_url_" ++ productId) = None -> url config = "")
       /\ (rows !! ("cards_api_token_" ++ productId) = None -> token config = ""))
  /\ (forall e message json,
        message_text js e = Ok message -> err_json e = Serialised_text json ->
        (contains_ci (message ++ json) "no such table"
         /\ contains_ci (message ++ json) "settings" ->
         getProductCardApiConfig js productId
           {| settings := SettingsFault e; cards := cs; trace := tr |}
         = (Ok {| enabled := false; url := ""; token := "" |},
            {| settings := SettingsFault e; cards := cs;
               trace := tr ++ [EvSelectSettings ["cards_api_enabled_" ++ productId;
                                                 "cards_api_url_" ++ productId;
                                                 "cards_api_token_" ++ productId]] |}))
        /\ (~ (contains_ci (message ++ json) "no such table"
               /\ contains_ci (message ++ json) "settings") ->
            (getProductCardApiConfig js productId
               {| settings := SettingsFault e; cards := cs; trace := tr |}).1
            = Throw e))
  /\ (forall e thrown,
        error_text js e = Throw thrown ->
        (getProductCardApiConfig js productId
           {| settings := SettingsFault e; cards := cs; trace := tr |}).1
        = Throw thrown).
Proof.
  split; [|split].
  - intros rows. rewrite getProductCardApiConfig_run. simpl resolved_config.
    eexists. split; [reflexivity|]. simpl. unfold stored.
    repeat split.
    + destruct (rows !! _) as [[v|]|]; try done.
      intros Hv. by apply String.eqb_eq in Hv as ->.
    + intros ->. reflexivity.
    + by intros ->.
    + by intros ->.
    + by intros ->.
  - intros e message json Hm Hj. rewrite getProductCardApiConfig_run.
    simpl resolved_config. unfold is_missing_table.
    rewrite (error_text_inspect js e message json Hm Hj).
    destruct (includes _ "no such table" && includes _ "settings") eqn:Hmiss.
    + split; [done|]. intros Hnot. destruct Hnot.
      apply andb_true_iff in Hmiss as [H1 H2]. by rewrite <- !includes_lower_ci.
    + split; [|done]. intros [H1 H2].
      apply includes_lower_ci in H1, H2. by rewrite H1, H2 in Hmiss.
  - intros e thrown Hthrown. rewrite getProductCardApiConfig_run.
    simpl. unfold is_missing_table. by rewrite Hthrown.
Qed.

Lemma getProductCardApiConfig_reads_store_witness :
  exists config,
    (getProductCardApiConfig sample_builtins "p1" (sample_world "true" "  https://x/y ")).1
    = Ok config
    /\ enabled config = true
    /\ url config = "https://x/y"
    /\ token config = "".
Proof.
  destruct (proj1 (getProductCardApiConfig_reads_store sample_builtins "p1" [] [])
              (<["cards_api_enabled_p1" := Some "true"]>
                 (<["cards_api_url_p1" := Some "  https://x/y "]> ∅)))
    as (config & Hrun & Hen & Hurl & Htok & _).
  exists config. split; [exact (f_equal fst Hrun)|].
  split; [apply Hen; vm_compute; reflexivity|].
  split; [rewrite Hurl|rewrite Htok]; vm_compute; reflexivity.
Defined.

(** C7, as the design document words it, fails on a store that cannot be
    read for another reason than a missing table: no configuration is
    returned, the error of the read is thrown; and on a store whose
    error cannot be serialised, where the error of the serialisation is
    thrown. *)
Lemma getProductCardApiConfig_locked_store :
  (getProductCardApiConfig sample_builtins "p1"
     {| settings := SettingsFault (sample_error (Some "D1_ERROR: database is locked"));
        cards := []; trace := [] |}).1
  = Throw (sample_error (Some "D1_ERROR: database is locked"))
  /\ (getProductCardApiConfig sample_builtins "p1"
        {| settings := SettingsFault (cyclic_error (JStr "no such table: settings"));
           cards := []; trace := [] |}).1
     = Throw (sample_error (Some "Converting circular structure to JSON")).
Proof. split; vm_compute; reflexivity. Qed.

(** The three keys of a product are pairwise different. *)
Lemma keys_enabled_url (productId : string) :
  "cards_api_enabled_" ++ productId <> "cards_api_url_" ++ productId.
Proof. intros H. apply (f_equal (String.get 10)) in H. cbv in H. discriminate H. Qed.

Lemma keys_enabled_token (productId : string) :
  "cards_api_enabled_" ++ productId <> "cards_api_token_" ++ productId.
Proof. intros H. apply (f_equal (String.get 10)) in H. cbv in H. discriminate H. Qed.

Lemma keys_url_token (productId : string) :
  "cards_api_url_" ++ productId <> "cards_api_token_" ++ productId.
Proof. intros H. apply (f_equal (String.get 10)) in H. cbv in H. discriminate H. Qed.

(** What a completed save leaves in the store. *)
Lemma saveProductCardApiConfig_run (productId : string)
    (config : ProductCardApiConfig) (w w' : World) :
  saveProductCardApiConfig productId config w = (Ok tt, w') ->
  exists rows,
    settings w = SettingsRows rows
    /\ settings w'
       = SettingsRows
           (<["cards_api_token_" ++ productId := Some (trim (token config))]>
              (<["cards_api_url_" ++ productId := Some (trim (url config))]>
                 (<["cards_api_enabled_" ++ productId :=
                      Some (if enabled config then "true" else "false")]> rows))).
Proof.
  unfold saveProductCardApiConfig, promise_all, setSetting, bind, emit, ret.
  rewrite keyOf_enabled, keyOf_url, keyOf_token, negb_involutive.
  destruct w as [[rows|e] cs tr]; simpl; [|done].
  intros [= <-]. by exists rows.
Qed.

(** C9.  Once a save of a configuration has completed, resolving the
    configuration of the same product returns the saved enabled flag and
    the saved url and token trimmed: the save has bound the three keys
    of the product to the flag as true or false and to the trimmed url
    and token. *)
Theorem save_then_get_roundtrip (js : Builtins) (productId : string)
    (config : ProductCardApiConfig) (w w' : World) :
  saveProductCardApiConfig productId config w = (Ok tt, w') ->
  (getProductCardApiConfig js productId w').1
  = Ok {| enabled := enabled config;
          url := trim (url config);
          token := trim (token config) |}
  /\ exists rows,
       settings w = SettingsRows rows
       /\ settings w'
          = SettingsRows
              (<["cards_api_token_" ++ productId := Some (trim (token config))]>
                 (<["cards_api_url_" ++ productId := Some (trim (url config))]>
                    (<["cards_api_enabled_" ++ productId :=
                         Some (if enabled config then "true" else "false")]> rows))).
Proof.
  intros Hsave.
  destruct (saveProductCardApiConfig_run _ _ _ _ Hsave) as (rows & Hw & Hw').
  split; [|by exists rows].
  rewrite getProductCardApiConfig_run, Hw'. simpl. unfold stored.
  rewrite lookup_insert_eq.
  rewrite (lookup_insert_ne _ ("cards_api_token_" ++ productId)
             ("cards_api_url_" ++ productId)) by (symmetry; apply keys_url_token).
  rewrite lookup_insert_eq.
  rewrite (lookup_insert_ne _ ("cards_api_token_" ++ productId)
             ("cards_api_enabled_" ++ productId)) by (symmetry; apply keys_enabled_token).
  rewrite (lookup_insert_ne _ ("cards_api_url_" ++ productId)
             ("cards_api_enabled_" ++ productId)) by (symmetry; apply keys_enabled_url).
  rewrite lookup_insert_eq, !trim_idempotent.
  by destruct (enabled config).
Qed.

Lemma save_then_get_roundtrip_witness :
  (getProductCardApiConfig sample_builtins "p1"
     (saveProductCardApiConfig "p1"
        {| enabled := true; url := "  https://x/y "; token := " t0k " |}
        (sample_world "false" "https://old/")).2).1
  = Ok {| enabled := true; url := "https://x/y"; token := "t0k" |}.
Proof.
  apply (save_then_get_roundtrip sample_builtins "p1"
           {| enabled := true; url := "  https://x/y "; token := " t0k " |}
           (sample_world "false" "https://old/")).
  reflexivity.
Defined.

End ResolverProperties.

(** ** Properties of the pull orchestrator *)

Section OrchestratorProperties.

(** Case analysis over the steps of one pull attempt. *)
Ltac pull_cases env productId w :=
  unfold pull_steps; cbv zeta;
  destruct (resolved_config _ (settings w) productId) as [config|e0] eqn:Hcfg;
  [destruct (enabled config) eqn:Hen; cbn [negb];
   [destruct (nonempty (url config)) eqn:Hurl; cbn [negb];
    [destruct (url_parse env (url config)) as [requestUrl|e1] eqn:Hparse;
     [destruct (http_fetch env (api_request requestUrl config))
        as [response|e2] eqn:Hfetch;
      [destruct (response_ok response) eqn:Hok; cbn [negb];
       [destruct (read_payload response) as [payload|e3] eqn:Hbody;
        [destruct (nonempty (extractCardKey payload)) eqn:Hkey; cbn [negb];
         [destruct (cards_verdict env (cards w)
                      {| card_productId := productId;
                         card_cardKey := extractCardKey payload |})
            as [e4|] eqn:Hins;
          [destruct (isUniqueConstraintError _ e4) as [[]|e5] eqn:Hdup|]|]|]|]|]|]|]|]|].

Lemma response_ok_range (r : Response) :
  response_ok r = true <-> (200 <= status r <= 299)%N.
Proof.
  unfold response_ok. rewrite andb_true_iff, !N.leb_le. tauto.
Qed.

Lemma message_or_truthy (e : JsError) (fallback : string) :
  truthy (err_message e) = true -> message_or e fallback = err_message e.
Proof. intros H. unfold message_or, js_or. by rewrite H. Qed.

Lemma message_or_falsy (e : JsError) (fallback : string) :
  truthy (err_message e) = false -> message_or e fallback = JStr fallback.
Proof. intros H. unfold message_or, js_or. by rewrite H. Qed.

(** The heuristic searches the message followed by the serialised form,
    up to letter case. *)
Lemma isUniqueConstraintError_spec (js : Builtins) (e : JsError) (message json : string) :
  message_text js e = Ok message -> err_json e = Serialised_text json ->
  exists duplicate,
    isUniqueConstraintError js e = Ok duplicate
    /\ (duplicate = true
        <-> contains_ci (message ++ json) "unique"
            \/ contains_ci (message ++ json) "constraint failed").
Proof.
  intros Hm Hj. unfold isUniqueConstraintError.
  rewrite (error_text_inspect js e message json Hm Hj).
  eexists. split; [done|].
  by rewrite orb_true_iff, !includes_lower_ci.
Qed.

Lemma isUniqueConstraintError_throws (js : Builtins) (e thrown : JsError) :
  isUniqueConstraintError js e = Throw thrown <-> error_text js e = Throw thrown.
Proof.
  unfold isUniqueConstraintError. destruct (error_text js e); split; congruence.
Qed.

(** C10.  The extractor returns a trimmed string in every branch; hence
    a pull that returns ok:true carries a card key that is non-empty,
    equal to its own trim and free of white space at both ends, and the
    row it has inserted, the last collaborator call of the attempt,
    pairs the product with that very key. *)
Theorem pull_success_card :
  (forall payload, trim (extractCardKey payload) = extractCardKey payload)
  /\ (forall js env productId w out,
        pull_result js env productId w = Ok out -> ok out = true ->
        exists key,
          out = success key /\ key <> "" /\ trim key = key
          /\ (forall c rest, key = String c rest -> is_space c = false)
          /\ (forall front c, key = (front ++ String c "")%string -> is_space c = false)
          /\ cards (pull_world js env productId w)
             = (cards w ++ [{| card_productId := productId; card_cardKey := key |}])%list
          /\ last (trace (pull_world js env productId w))
             = Some (EvInsertCard {| card_productId := productId; card_cardKey := key |})).
Proof.
  split; [exact extractCardKey_trimmed|].
  intros js env productId w out. unfold pull_result, pull_world.
  rewrite pullOneCardFromApi_run. pull_cases env productId w; simpl;
    try (intros [= <-]; done); try done.
  intros [= <-] _. exists (extractCardKey payload).
  split; [done|]. split; [by apply nonempty_true|].
  split; [apply extractCardKey_trimmed|].
  split; [intros c rest Hc; eapply trim_first_char;
          by rewrite extractCardKey_trimmed|].
  split; [intros front c Hc; eapply trim_last_char;
          by rewrite extractCardKey_trimmed|].
  split; [done|]. apply last_snoc.
Qed.

Lemma pull_success_card_witness :
  cards (pull_world sample_builtins
           (sample_env
              (Ok (json_response 200 (JObj [("data", JObj [("code", JStr " ABC123 ")])])))
              None)
           "p1" (sample_world "true" "https://x/y"))
  = [sample_row "ABC123"].
Proof.
  destruct (proj2 pull_success_card sample_builtins
              (sample_env
                 (Ok (json_response 200 (JObj [("data", JObj [("code", JStr " ABC123 ")])])))
                 None)
              "p1" (sample_world "true" "https://x/y") (success "ABC123"))
    as (key & Hout & _ & _ & _ & _ & Hcards & _).
  - vm_compute. reflexivity.
  - reflexivity.
  - injection Hout as <-. exact Hcards.
Defined.

(** What the resolver returns is what the store resolves to. *)
Lemma pull_result_config (js : Builtins) (productId : string) (w : World)
    (config : ProductCardApiConfig) :
  (getProductCardApiConfig js productId w).1 = Ok config ->
  resolved_config js (settings w) productId = Ok config.
Proof. by rewrite getProductCardApiConfig_run. Qed.

(** C1, as the code has it.  With the configuration resolved, the
    attempt goes through its checks in this order and returns at the
    first that fails: not enabled gives api_disabled, marked skipped; an
    empty url gives api_url_missing; a url that does not normalise gives
    api_url_invalid; a status outside 200-299 gives
    api_request_failed_<status>; an empty extraction gives
    api_card_missing; an insert that fails with a uniqueness violation,
    as the heuristic of the code recognises it, gives
    api_card_duplicate; an insert that fails otherwise gives the message
    of the error, as it is, or api_insert_failed when the error has no
    message or a falsy one; and otherwise the attempt returns ok:true
    with the card key.  The two outcomes of a failed insert presuppose
    that the text of the error can be put together: when rendering the
    message or serialising the error throws, the attempt throws that. *)
Theorem pull_steps_in_order (js : Builtins) (env : Env) (productId : string) (w : World)
    (config : ProductCardApiConfig) :
  (getProductCardApiConfig js productId w).1 = Ok config ->
  (enabled config = false ->
   pull_result js env productId w = Ok outcome_disabled)
  /\ (enabled config = true -> url config = "" ->
      pull_result js env productId w = Ok (failure "api_url_missing"))
  /\ (enabled config = true -> url config <> "" ->
      (forall e, resolveApiUrl env (url config) = Throw e ->
                 pull_result js env productId w = Ok (failure "api_url_invalid"))
      /\ (forall requestUrl response,
            resolveApiUrl env (url config) = Ok requestUrl ->
            http_fetch env (api_request requestUrl config) = Ok response ->
            (~ (200 <= status response <= 299)%N ->
             pull_result js env productId w
             = Ok (failure ("api_request_failed_" ++ of_N (status response))))
            /\ (forall payload,
                  (200 <= status response <= 299)%N ->
                  read_payload response = Ok payload ->
                  (extractCardKey payload = "" ->
                   pull_result js env productId w = Ok (failure "api_card_missing"))
                  /\ (extractCardKey payload <> "" ->
                      (forall e,
                         cards_verdict env (cards w)
                           {| card_productId := productId;
                              card_cardKey := extractCardKey payload |} = Some e ->
                         (isUniqueConstraintError js e = Ok true ->
                          pull_result js env productId w
                          = Ok (failure "api_card_duplicate"))
                         /\ (isUniqueConstraintError js e = Ok false ->
                             truthy (err_message e) = true ->
                             pull_result js env productId w
                             = Ok (failure_value (err_message e)))
                         /\ (isUniqueConstraintError js e = Ok false ->
                             truthy (err_message e) = false ->
                             pull_result js env productId w
                             = Ok (failure "api_insert_failed"))
                         /\ (forall thrown,
                               isUniqueConstraintError js e = Throw thrown ->
                               pull_result js env productId w = Throw thrown))
                      /\ (cards_verdict env (cards w)
                            {| card_productId := productId;
                               card_cardKey := extractCardKey payload |} = None ->
                          pull_result js env productId w
                          = Ok (success (extractCardKey payload))))))).
Proof.
  intros Hget. apply pull_result_config in Hget as Hcfg.
  pose proof (resolved_config_trimmed _ _ _ _ Hcfg) as Htrim.
  unfold pull_result. rewrite pullOneCardFromApi_run.
  unfold pull_steps. cbv zeta. rewrite Hcfg.
  split; [by intros ->|]. split.
  { intros -> Hurl. by rewrite Hurl. }
  intros -> Hurl. apply nonempty_true in Hurl. rewrite Hurl. cbn [negb].
  rewrite (resolveApiUrl_trimmed env _ Htrim Hurl). split.
  { by intros e ->. }
  intros requestUrl response -> ->. split.
  { intros Hrange. destruct (response_ok response) eqn:Hok; [|done].
    by apply response_ok_range in Hok. }
  intros payload Hrange ->. apply response_ok_range in Hrange as ->. cbn [negb].
  split.
  { by intros ->. }
  intros Hkey. apply nonempty_true in Hkey as ->. cbn [negb]. split.
  - intros e ->. split; [by intros ->|]. split; [|split].
    + intros -> Hm. by rewrite (message_or_truthy _ _ Hm).
    + intros -> Hm. by rewrite (message_or_falsy _ _ Hm).
    + by intros thrown ->.
  - by intros ->.
Qed.

Lemma pull_steps_in_order_witness :
  pull_result sample_builtins (sample_env (Ok (text_response 404 "not found")) None) "p1"
    (sample_world "true" "https://x/y")
  = Ok (failure "api_request_failed_404").
Proof.
  pose proof (pull_steps_in_order sample_builtins
                (sample_env (Ok (text_response 404 "not found")) None) "p1"
                (sample_world "true" "https://x/y")
                {| enabled := true; url := "https://x/y"; token := "" |}) as H.
  destruct H as (_ & _ & H); [vm_compute; reflexivity|].
  destruct H as [_ H]; [reflexivity|discriminate|].
  destruct (H "https://x/y" (text_response 404 "not found")) as [H404 _];
    [reflexivity|reflexivity|].
  apply H404. simpl. lia.
Defined.

(** C1, as the design document words it, fails where the rejected
    insert carries an empty message (the outcome is api_insert_failed,
    not the empty message) and where the rejected insert cannot be
    serialised (the attempt throws and returns no outcome). *)
Lemma pull_blank_store_error :
  (cards_verdict (sample_env (Ok (text_response 200 "ABC")) (Some (sample_error (Some ""))))
     [] (sample_row "ABC") = Some (sample_error (Some ""))
   /\ isUniqueConstraintError sample_builtins (sample_error (Some "")) = Ok false
   /\ pull_result sample_builtins
        (sample_env (Ok (text_response 200 "ABC")) (Some (sample_error (Some ""))))
        "p1" (sample_world "true" "https://x/y")
      = Ok (failure "api_insert_failed")
   /\ Ok (failure "api_insert_failed")
      <> Ok (failure_value (err_message (sample_error (Some "")))))
  /\ (cards_verdict
        (sample_env (Ok (text_response 200 "ABC"))
           (Some (cyclic_error (JStr "disk I/O error"))))
        [] (sample_row "ABC") = Some (cyclic_error (JStr "disk I/O error"))
      /\ pull_result sample_builtins
           (sample_env (Ok (text_response 200 "ABC"))
              (Some (cyclic_error (JStr "disk I/O error"))))
           "p1" (sample_world "true" "https://x/y")
         = Throw (sample_error (Some "Converting circular structure to JSON"))).
Proof.
  split.
  - split; [reflexivity|]. split; [reflexivity|].
    split; [vm_compute; reflexivity|]. discriminate.
  - split; [reflexivity|]. vm_compute. reflexivity.
Qed.

(** C2, as the code has it.  An attempt either returns an outcome, which
    says ok:false unless it carries the card key, or throws; and what it
    throws was thrown by the settings read (for another reason than a
    missing settings table), by the fetch, by the decoding of the body
    of a 2xx response, or while the text of the error of a failed
    settings read or of a rejected insert was put together.  A url that
    fails to normalise, a status outside 200-299 and a rejected insert
    whose error has a text are turned into ok:false outcomes. *)
Theorem pull_exceptions_only_from (js : Builtins) (env : Env) (productId : string)
    (w : World) :
  ((exists out,
      pull_result js env productId w = Ok out
      /\ (ok out = false \/ exists key, out = success key))
   \/ (exists thrown,
        pull_result js env productId w = Throw thrown
        /\ ((exists e, settings w = SettingsFault e
                       /\ (is_missing_table js e = Ok false /\ thrown = e
                           \/ error_text js e = Throw thrown))
            \/ (exists req, http_fetch env req = Throw thrown)
            \/ (exists req response,
                  http_fetch env req = Ok response
                  /\ response_ok response = true
                  /\ read_payload response = Throw thrown)
            \/ (exists table row e,
                  cards_verdict env table row = Some e
                  /\ error_text js e = Throw thrown))))
  /\ (forall config e,
        (getProductCardApiConfig js productId w).1 = Ok config ->
        enabled config = true -> url config <> "" ->
        resolveApiUrl env (url config) = Throw e ->
        exists out, pull_result js env productId w = Ok out /\ ok out = false)
  /\ (forall req response,
        last (trace (pull_world js env productId w)) = Some (EvFetch req) ->
        http_fetch env req = Ok response ->
        ~ (200 <= status response <= 299)%N ->
        exists out, pull_result js env productId w = Ok out /\ ok out = false)
  /\ (forall row e text,
        last (trace (pull_world js env productId w)) = Some (EvInsertCard row) ->
        cards_verdict env (cards w) row = Some e ->
        error_text js e = Ok text ->
        exists out, pull_result js env productId w = Ok out /\ ok out = false).
Proof.
  split; [|split; [|split]].
  - unfold pull_result. rewrite pullOneCardFromApi_run.
    pull_cases env productId w; simpl;
      try (left; eexists; split; [reflexivity|];
           first [by left | by right; eexists]).
    + right. exists e5. split; [done|]. right. right. right.
      eexists _, _, e4. split; [done|]. by apply isUniqueConstraintError_throws.
    + right. exists e3. split; [done|]. right. right. left. by eexists _, response.
    + right. exists e2. split; [done|]. right. left. by eexists.
    + right. exists e0. split; [done|]. left.
      destruct (settings w) as [rows|e]; simpl in Hcfg; [done|].
      exists e. split; [done|]. unfold is_missing_table in *.
      destruct (error_text js e) as [text|thrown]; [|right; congruence].
      left. destruct (_ && _); [done|]. split; congruence.
  - intros config e Hget Hen Hurl Hparse.
    apply pull_result_config in Hget as Hcfg.
    pose proof (resolved_config_trimmed _ _ _ _ Hcfg) as Htrim.
    apply nonempty_true in Hurl.
    rewrite (resolveApiUrl_trimmed env _ Htrim Hurl) in Hparse.
    unfold pull_result. rewrite pullOneCardFromApi_run. unfold pull_steps. cbv zeta.
    rewrite Hcfg, Hen, Hurl. cbn [negb]. rewrite Hparse. by eexists.
  - intros req answer. unfold pull_result, pull_world.
    rewrite pullOneCardFromApi_run.
    pull_cases env productId w; simpl trace; rewrite last_snoc; intros [= <-];
      rewrite Hfetch; intros [= <-] Hrange; try by eexists.
    all: by apply response_ok_range in Hok.
  - intros row e text. unfold pull_result, pull_world.
    rewrite pullOneCardFromApi_run.
    pull_cases env productId w; simpl trace; rewrite last_snoc; intros [= <-];
      rewrite Hins; intros [= <-] Htext; try by eexists.
    apply isUniqueConstraintError_throws in Hdup. congruence.
Qed.

(** C2, as the design document words it, fails on an upstream that
    cannot be reached (the exception of the fetch leaves the attempt)
    and on a rejected insert whose error cannot be serialised (the
    exception of the serialisation leaves it, from inside the handler
    of the insert). *)
Lemma pull_fetch_exception_escapes :
  pull_result sample_builtins
    (sample_env (Throw (sample_error (Some "fetch failed"))) None) "p1"
    (sample_world "true" "https://x/y")
  = Throw (sample_error (Some "fetch failed"))
  /\ pull_result sample_builtins
       (sample_env (Ok (text_response 200 "ABC"))
          (Some (cyclic_error (JStr "disk I/O error"))))
       "p1" (sample_world "true" "https://x/y")
     = Throw (sample_error (Some "Converting circular structure to JSON")).
Proof. split; vm_compute; reflexivity. Qed.

(** C6.  When an attempt stops at one of its three configuration checks
    (the configuration is not enabled, its url is empty, or its url
    does not normalise) it returns the outcome of that check,
    api_disabled marked skipped, api_url_missing or api_url_invalid,
    having made the settings read and nothing else: no fetch was issued,
    no insert was attempted, and the cards table is as it was. *)
Theorem config_checks_touch_nothing (js : Builtins) (env : Env) (productId : string)
    (w : World) (config : ProductCardApiConfig) :
  (getProductCardApiConfig js productId w).1 = Ok config ->
  ((enabled config = false ->
    pullOneCardFromApi js env productId w
    = (Ok outcome_disabled, after_settings_read productId w))
   /\ (enabled config = true -> url config = "" ->
       pullOneCardFromApi js env productId w
       = (Ok (failure "api_url_missing"), after_settings_read productId w))
   /\ (enabled config = true -> url config <> "" ->
       forall e, resolveApiUrl env (url config) = Throw e ->
       pullOneCardFromApi js env productId w
       = (Ok (failure "api_url_invalid"), after_settings_read productId w)))
  /\ new_events w (after_settings_read productId w)
     = [EvSelectSettings [("cards_api_enabled_" ++ productId)%string;
                          ("cards_api_url_" ++ productId)%string;
                          ("cards_api_token_" ++ productId)%string]]
  /\ fetches (new_events w (after_settings_read productId w)) = []
  /\ inserts (new_events w (after_settings_read productId w)) = []
  /\ cards (after_settings_read productId w) = cards w.
Proof.
  intros Hget. apply pull_result_config in Hget as Hcfg.
  pose proof (resolved_config_trimmed _ _ _ _ Hcfg) as Htrim.
  split.
  - rewrite pullOneCardFromApi_run. unfold pull_steps. cbv zeta.
    rewrite Hcfg. split; [by intros ->|]. split.
    + intros -> Hurl. by rewrite Hurl.
    + intros -> Hurl e Hparse. apply nonempty_true in Hurl.
      rewrite (resolveApiUrl_trimmed env _ Htrim Hurl) in Hparse.
      by rewrite Hurl, Hparse.
  - rewrite new_events_settings_read. done.
Qed.

Lemma config_checks_touch_nothing_witness :
  pullOneCardFromApi sample_builtins (sample_env (Ok (text_response 200 "ABC")) None) "p1"
    (sample_world "true" "ftp//nowhere")
  = (Ok (failure "api_url_invalid"),
     after_settings_read "p1" (sample_world "true" "ftp//nowhere")).
Proof.
  destruct (config_checks_touch_nothing sample_builtins
              (sample_env (Ok (text_response 200 "ABC")) None) "p1"
              (sample_world "true" "ftp//nowhere")
              {| enabled := true; url := "ftp//nowhere"; token := "" |})
    as [(_ & _ & Hinvalid) _]; [vm_compute; reflexivity|].
  apply (Hinvalid eq_refl ltac:(discriminate)
           (sample_error (Some "Invalid URL"))).
  reflexivity.
Defined.

(** C8, as the code has it.  When the insert of an attempt is rejected
    with an error whose message can be rendered and which can be
    serialised, the rejection counts as a duplicate exactly when the
    message followed by the serialised form contains unique or
    constraint failed up to letter case, and the attempt then returns
    api_card_duplicate; any other such rejection is reported under the
    message of the error, as it is, when the message is truthy, and
    under api_insert_failed when there is no message or a falsy one.
    When the text of the error cannot be put together, the attempt
    throws what the rendering or the serialisation threw. *)
Theorem insert_failure_classification (js : Builtins) (env : Env) (productId : string)
    (w : World) (row : Card) (e : JsError) :
  last (trace (pull_world js env productId w)) = Some (EvInsertCard row) ->
  cards_verdict env (cards w) row = Some e ->
  (forall message json,
     message_text js e = Ok message -> err_json e = Serialised_text json ->
     exists duplicate,
       isUniqueConstraintError js e = Ok duplicate
       /\ (duplicate = true
           <-> contains_ci (message ++ json) "unique"
               \/ contains_ci (message ++ json) "constraint failed"))
  /\ (isUniqueConstraintError js e = Ok true ->
      pull_result js env productId w = Ok (failure "api_card_duplicate"))
  /\ (isUniqueConstraintError js e = Ok false -> truthy (err_message e) = true ->
      pull_result js env productId w = Ok (failure_value (err_message e)))
  /\ (isUniqueConstraintError js e = Ok false -> truthy (err_message e) = false ->
      pull_result js env productId w = Ok (failure "api_insert_failed"))
  /\ (forall thrown,
        error_text js e = Throw thrown ->
        pull_result js env productId w = Throw thrown).
Proof.
  intros Hlast Hreject. split.
  { intros message json. apply isUniqueConstraintError_spec. }
  revert Hlast. unfold pull_result, pull_world.
  rewrite pullOneCardFromApi_run. pull_cases env productId w; simpl trace;
    rewrite last_snoc; intros [= Hrow]; subst row;
    rewrite Hins in Hreject; simplify_eq; simpl fst.
  all: rewrite Hdup;
    (split; [|split; [|split;
       [|intros thrown Ht; apply isUniqueConstraintError_throws in Ht; congruence]]]);
    try congruence.
  - intros _ Hm. by rewrite (message_or_truthy _ _ Hm).
  - intros _ Hm. by rewrite (message_or_falsy _ _ Hm).
Qed.

Lemma insert_failure_classification_witness :
  pull_result sample_builtins
    (sample_env (Ok (text_response 200 "ABC"))
       (Some (sample_error (Some "UNIQUE constraint failed: cards.card_key"))))
    "p1" (sample_world "true" "https://x/y")
  = Ok (failure "api_card_duplicate").
Proof.
  destruct (insert_failure_classification sample_builtins
              (sample_env (Ok (text_response 200 "ABC"))
                 (Some (sample_error (Some "UNIQUE constraint failed: cards.card_key"))))
              "p1" (sample_world "true" "https://x/y") (sample_row "ABC")
              (sample_error (Some "UNIQUE constraint failed: cards.card_key")))
    as (_ & Hduplicate & _).
  - vm_compute. reflexivity.
  - reflexivity.
  - apply Hduplicate. reflexivity.
Defined.

(** C8, as the design document words it, fails where the rejected
    insert carries no message (the outcome is api_insert_failed, which
    is not a message of the error) and where the rejected insert cannot
    be serialised (no outcome is returned, the attempt throws). *)
Lemma pull_bare_store_error :
  (cards_verdict (sample_env (Ok (text_response 200 "ABC")) (Some (sample_error None)))
     [] (sample_row "ABC") = Some (sample_error None)
   /\ isUniqueConstraintError sample_builtins (sample_error None) = Ok false
   /\ pull_result sample_builtins
        (sample_env (Ok (text_response 200 "ABC")) (Some (sample_error None)))
        "p1" (sample_world "true" "https://x/y")
      = Ok (failure "api_insert_failed")
   /\ error (failure "api_insert_failed") <> Some (err_message (sample_error None)))
  /\ (cards_verdict
        (sample_env (Ok (text_response 200 "ABC"))
           (Some (cyclic_error (JStr "SQLITE_BUSY"))))
        [] (sample_row "ABC") = Some (cyclic_error (JStr "SQLITE_BUSY"))
      /\ pull_result sample_builtins
           (sample_env (Ok (text_response 200 "ABC"))
              (Some (cyclic_error (JStr "SQLITE_BUSY"))))
           "p1" (sample_world "true" "https://x/y")
         = Throw (sample_error (Some "Converting circular structure to JSON"))).
Proof.
  split.
  - split; [reflexivity|]. split; [reflexivity|].
    split; [vm_compute; reflexivity|]. discriminate.
  - split; [reflexivity|]. vm_compute. reflexivity.
Qed.

End OrchestratorProperties.

(** ** Scenarios of the design document *)

Section Scenarios.

Example scenario_disabled :
  pullOneCardFromApi sample_builtins (sample_env (Ok (text_response 200 "ABC")) None) "p1"
    (sample_world "false" "https://x/y")
  = (Ok outcome_disabled, after_settings_read "p1" (sample_world "false" "https://x/y")).
Proof. vm_compute. reflexivity. Qed.

Example scenario_nested_code :
  pull_result sample_builtins
    (sample_env
       (Ok (json_response 200 (JObj [("data", JObj [("code", JStr " ABC123 ")])]))) None)
    "p1" (sample_world "true" "https://x/y")
  = Ok (success "ABC123").
Proof. vm_compute. reflexivity. Qed.

Example scenario_not_found :
  pullOneCardFromApi sample_builtins (sample_env (Ok (text_response 404 "")) None) "p1"
    (sample_world "true" "https://x/y")
  = (Ok (failure "api_request_failed_404"),
     record_event
       (EvFetch (api_request "https://x/y"
                   {| enabled := true; url := "https://x/y"; token := "" |}))
       (after_settings_read "p1" (sample_world "true" "https://x/y"))).
Proof. vm_compute. reflexivity. Qed.

Example scenario_empty_object :
  pull_result sample_builtins (sample_env (Ok (json_response 200 (JObj []))) None) "p1"
    (sample_world "true" "https://x/y")
  = Ok (failure "api_card_missing").
Proof. vm_compute. reflexivity. Qed.

Example scenario_malformed_json :
  pull_result sample_builtins
    (sample_env
       (Ok {| status := 200; content_type := Some "Application/JSON";
              body_json := Throw (sample_error (Some "Unexpected token"));
              body_text := Ok "<html>" |}) None)
    "p1" (sample_world "true" "https://x/y")
  = Throw (sample_error (Some "Unexpected token")).
Proof. vm_compute. reflexivity. Qed.

Example scenario_bearer_token :
  request_headers {| enabled := true; url := "https://x/y"; token := "s3cret" |}
  = [("Accept", "application/json, text/plain;q=0.9, */*;q=0.8");
     ("Authorization", "Bearer s3cret")].
Proof. reflexivity. Qed.

End Scenarios.

(** ** Further properties of the pull pipeline *)

Section PipelineProperties.

Ltac pull_cases env productId w :=
  unfold pull_steps; cbv zeta;
  destruct (resolved_config _ (settings w) productId) as [config|e0] eqn:Hcfg;
  [destruct (enabled config) eqn:Hen; cbn [negb];
   [destruct (nonempty (url config)) eqn:Hurl; cbn [negb];
    [destruct (url_parse env (url config)) as [requestUrl|e1] eqn:Hparse;
     [destruct (http_fetch env (api_request requestUrl config))
        as [response|e2] eqn:Hfetch;
      [destruct (response_ok response) eqn:Hok; cbn [negb];
       [destruct (read_payload response) as [payload|e3] eqn:Hbody;
        [destruct (nonempty (extractCardKey payload)) eqn:Hkey; cbn [negb];
         [destruct (cards_verdict env (cards w)
                      {| card_productId := productId;
                         card_cardKey := extractCardKey payload |})
            as [e4|] eqn:Hins|]|]|]|]|]|]|]|].

(** Resolving after a completed save. *)
Lemma save_then_get_roundtrip_general (js : Builtins) (productId : string)
    (config : ProductCardApiConfig) (w w' : World) :
  saveProductCardApiConfig productId config w = (Ok tt, w') ->
  (getProductCardApiConfig js productId w').1
  = Ok {| enabled := enabled config;
          url := trim (url config);
          token := trim (token config) |}
  /\ exists rows, settings w = SettingsRows rows.
Proof.
  intros Hsave.
  destruct (saveProductCardApiConfig_run _ _ _ _ Hsave) as (rows & Hw & Hw').
  split; [|by exists rows].
  rewrite getProductCardApiConfig_run, Hw'. simpl. unfold stored.
  rewrite lookup_insert_eq.
  rewrite (lookup_insert_ne _ ("cards_api_token_" ++ productId)
             ("cards_api_url_" ++ productId)) by (symmetry; apply keys_url_token).
  rewrite lookup_insert_eq.
  rewrite (lookup_insert_ne _ ("cards_api_token_" ++ productId)
             ("cards_api_enabled_" ++ productId)) by (symmetry; apply keys_enabled_token).
  rewrite (lookup_insert_ne _ ("cards_api_url_" ++ productId)
             ("cards_api_enabled_" ++ productId)) by (symmetry; apply keys_enabled_url).
  rewrite lookup_insert_eq, !trim_idempotent.
  by destruct (enabled config).
Qed.

(** X1.  A pull fetches only for an enabled configuration and only the
    url that the URL parser returned for the stored, non-empty url: no
    request ever goes to a url that did not pass the parser. *)
Theorem pull_fetches_parsed_url (js : Builtins) (env : Env) (productId : string) (w : World)
    (req : Request) :
  EvFetch req ∈ new_events w (pull_world js env productId w) ->
  exists config,
    resolved_config js (settings w) productId = Ok config
    /\ enabled config = true
    /\ url config <> ""
    /\ url_parse env (url config) = Ok (req_url req).
Proof.
  unfold pull_world. rewrite pullOneCardFromApi_run.
  pull_cases env productId w; simpl snd;
    rewrite ?new_events_settings_read, ?new_events_fetch, ?new_events_insert,
      ?new_events_stored;
    rewrite ?elem_of_cons, ?elem_of_nil;
    intros Hin; destruct_or?; simplify_eq; try done;
    exists config; (split; [done|]); (split; [done|]);
    (split; [by apply nonempty_true|done]).
Qed.

Lemma pull_fetches_parsed_url_witness :
  exists config,
    resolved_config sample_builtins (settings (sample_world "true" "https://x/y")) "p1" = Ok config
    /\ enabled config = true
    /\ url config <> ""
    /\ url_parse (sample_env (Ok (text_response 200 "ABC")) None) (url config)
       = Ok "https://x/y".
Proof.
  apply (pull_fetches_parsed_url sample_builtins (sample_env (Ok (text_response 200 "ABC")) None) "p1"
           (sample_world "true" "https://x/y")
           (api_request "https://x/y" {| enabled := true; url := "https://x/y"; token := "" |})).
  vm_compute. right. left.
Defined.


(** X2.  Every request of a pull is a GET that bypasses the cache and
    asks for JSON or text; it carries an Authorization header, Bearer
    followed by the token, exactly when the stored token is non-empty
    after trimming, and no other header. *)
Theorem pull_request_headers (js : Builtins) (env : Env) (productId : string) (w : World)
    (req : Request) :
  EvFetch req ∈ new_events w (pull_world js env productId w) ->
  exists config,
    resolved_config js (settings w) productId = Ok config
    /\ req_method req = "GET"
    /\ req_cache req = "no-store"
    /\ (token config = "" ->
        req_headers req = [("Accept", "application/json, text/plain;q=0.9, */*;q=0.8")])
    /\ (token config <> "" ->
        req_headers req = [("Accept", "application/json, text/plain;q=0.9, */*;q=0.8");
                           ("Authorization", "Bearer " ++ token config)]).
Proof.
  unfold pull_world. rewrite pullOneCardFromApi_run.
  pull_cases env productId w; simpl snd;
    rewrite ?new_events_settings_read, ?new_events_fetch, ?new_events_insert,
      ?new_events_stored;
    rewrite ?elem_of_cons, ?elem_of_nil;
    intros Hin; destruct_or?; simplify_eq; try done;
    exists config; (split; [done|]); (split; [done|]); (split; [done|]);
    unfold api_request, request_headers; simpl;
    (split; [by intros ->|]); intros Htok; by apply nonempty_true in Htok as ->.
Qed.

Lemma pull_request_headers_witness :
  exists config,
    resolved_config sample_builtins
      (SettingsRows (<["cards_api_token_p1" := Some " s3cret "]>
                       (<["cards_api_enabled_p1" := Some "true"]>
                          (<["cards_api_url_p1" := Some "https://x/y"]> ∅)))) "p1"
    = Ok config
    /\ "GET" = "GET"
    /\ "no-store" = "no-store"
    /\ (token config = "" ->
        [("Accept", "application/json, text/plain;q=0.9, */*;q=0.8");
         ("Authorization", "Bearer s3cret")]
        = [("Accept", "application/json, text/plain;q=0.9, */*;q=0.8")])
    /\ (token config <> "" ->
        [("Accept", "application/json, text/plain;q=0.9, */*;q=0.8");
         ("Authorization", "Bearer s3cret")]
        = [("Accept", "application/json, text/plain;q=0.9, */*;q=0.8");
           ("Authorization", "Bearer " ++ token config)]).
Proof.
  apply (pull_request_headers sample_builtins (sample_env (Ok (text_response 404 "")) None) "p1"
           {| settings :=
                SettingsRows (<["cards_api_token_p1" := Some " s3cret "]>
                                (<["cards_api_enabled_p1" := Some "true"]>
                                   (<["cards_api_url_p1" := Some "https://x/y"]> ∅)));
              cards := []; trace := [] |}
           {| req_url := "https://x/y"; req_method := "GET";
              req_headers := [("Accept", "application/json, text/plain;q=0.9, */*;q=0.8");
                              ("Authorization", "Bearer s3cret")];
              req_cache := "no-store" |}).
  vm_compute. right. left.
Defined.

(** X3.  One pull makes the settings read, then at most one fetch, then
    at most one insert: nothing is retried, and an insert is attempted
    only after a fetch that was answered with a status in 200-299. *)
Theorem pull_calls_once (js : Builtins) (env : Env) (productId : string) (w : World) :
  exists keys,
    new_events w (pull_world js env productId w) = [EvSelectSettings keys]
    \/ (exists req,
          new_events w (pull_world js env productId w) = [EvSelectSettings keys; EvFetch req])
    \/ (exists req response row,
          new_events w (pull_world js env productId w)
          = [EvSelectSettings keys; EvFetch req; EvInsertCard row]
          /\ http_fetch env req = Ok response
          /\ (200 <= status response <= 299)%N).
Proof.
  eexists. unfold pull_world. rewrite pullOneCardFromApi_run.
  pull_cases env productId w; simpl snd;
    rewrite ?new_events_settings_read, ?new_events_fetch, ?new_events_insert,
      ?new_events_stored;
    first [by left | by (right; left; eexists)
          | right; right; eexists _, response, _;
            split; [done|]; split; [done|]; by apply response_ok_range].
Qed.

(** X4.  A pull never writes the settings, and it leaves the cards
    table as it found it unless it returns ok:true, in which case the
    table has grown by exactly the row of the returned key.  This holds
    also when the pull throws. *)
Theorem pull_writes_only_on_success (js : Builtins) (env : Env) (productId : string) (w : World) :
  settings (pull_world js env productId w) = settings w
  /\ (cards (pull_world js env productId w) = cards w
      \/ exists key,
           pull_result js env productId w = Ok (success key)
           /\ cards (pull_world js env productId w)
              = (cards w ++ [{| card_productId := productId; card_cardKey := key |}])%list)
  /\ (forall key, pull_result js env productId w = Ok (success key) ->
                  cards (pull_world js env productId w) <> cards w).
Proof.
  unfold pull_world, pull_result. rewrite pullOneCardFromApi_run.
  pull_cases env productId w; simpl; (split; [done|]);
    try (split; [by left|];
         intros key Hsuccess; first [discriminate Hsuccess
                                    | by destruct (isUniqueConstraintError _ e4) as [[]|]]).
  split; [right; by eexists|].
  intros key _ Hsame. apply (f_equal length) in Hsame.
  rewrite length_app in Hsame. simpl in Hsame. lia.
Qed.

(** X5.  An ok:false outcome always names its error with a truthy
    value and carries no card key: the value is a non-empty string,
    except that the message of a rejected insert is passed on as it is,
    whatever its type.  An ok:true outcome carries a card key and no
    error; and the skipped mark is set on the api_disabled outcome
    only. *)
Theorem pull_outcome_shape (js : Builtins) (env : Env) (productId : string) (w : World)
    (out : PullOutcome) :
  pull_result js env productId w = Ok out ->
  (ok out = false ->
   cardKey out = None
   /\ exists code,
        error out = Some code /\ truthy code = true
        /\ ((exists text, code = JStr text /\ text <> "")
            \/ (exists row e,
                  cards_verdict env (cards w) row = Some e
                  /\ code = err_message e)))
  /\ (ok out = true -> error out = None /\ skipped out = None /\ exists key, cardKey out = Some key)
  /\ (skipped out <> None -> out = outcome_disabled).
Proof.
  unfold pull_result. rewrite pullOneCardFromApi_run.
  pull_cases env productId w; simpl; try discriminate;
    try (intros [= <-]; simpl;
         split; [intros _; split; [done|]; eexists; split; [done|];
                 split; [done|]; left; by eexists|];
         split; done).
  - destruct (isUniqueConstraintError _ e4) as [[]|]; intros [= <-]; simpl.
    + split; [|split; done]. intros _. split; [done|]. eexists. split; [done|].
      split; [done|]. left. by eexists.
    + split; [|split; done]. intros _. split; [done|]. eexists. split; [done|].
      unfold message_or, js_or. destruct (truthy (err_message e4)) eqn:Hm.
      * split; [done|]. right. by eexists _, e4.
      * split; [done|]. left. by eexists.
  - intros [= <-]; simpl.
    split; [done|]. split; [|done]. intros _. split; [done|]. split; [done|]. by eexists.
Qed.

Lemma pull_outcome_shape_witness :
  (ok (failure "api_request_failed_404") = false ->
   cardKey (failure "api_request_failed_404") = None
   /\ exists code,
        error (failure "api_request_failed_404") = Some code /\ truthy code = true
        /\ ((exists text, code = JStr text /\ text <> "")
            \/ (exists row e,
                  cards_verdict (sample_env (Ok (text_response 404 "not found")) None)
                    (cards (sample_world "true" "https://x/y")) row = Some e
                  /\ code = err_message e)))
  /\ (ok (failure "api_request_failed_404") = true ->
      error (failure "api_request_failed_404") = None
      /\ skipped (failure "api_request_failed_404") = None
      /\ exists key, cardKey (failure "api_request_failed_404") = Some key)
  /\ (skipped (failure "api_request_failed_404") <> None ->
      failure "api_request_failed_404" = outcome_disabled).
Proof.
  apply (pull_outcome_shape sample_builtins
           (sample_env (Ok (text_response 404 "not found")) None) "p1"
           (sample_world "true" "https://x/y")).
  vm_compute. reflexivity.
Defined.

(** X6.  When the settings read fails, the pull looks at the text of the
    error, its message followed by its serialised form: if the text
    mentions, in any letter case, both no such table and settings, the
    product counts as not configured and the pull returns the skipped
    api_disabled outcome; otherwise the error is thrown on to the
    caller.  When the text cannot be put together, because rendering
    the message or serialising the error throws, the pull throws that
    instead.  In each case nothing was fetched or inserted. *)
Theorem pull_on_failing_settings (js : Builtins) (env : Env) (productId : string) (w : World)
    (e : JsError) :
  settings w = SettingsFault e ->
  (forall message json,
     message_text js e = Ok message -> err_json e = Serialised_text json ->
     (contains_ci (message ++ json) "no such table"
      /\ contains_ci (message ++ json) "settings" ->
      pullOneCardFromApi js env productId w
      = (Ok outcome_disabled, after_settings_read productId w))
     /\ (~ (contains_ci (message ++ json) "no such table"
            /\ contains_ci (message ++ json) "settings") ->
         pullOneCardFromApi js env productId w
         = (Throw e, after_settings_read productId w)))
  /\ (forall thrown,
        error_text js e = Throw thrown ->
        pullOneCardFromApi js env productId w
        = (Throw thrown, after_settings_read productId w))
  /\ fetches (new_events w (after_settings_read productId w)) = []
  /\ inserts (new_events w (after_settings_read productId w)) = [].
Proof.
  intros Hst. rewrite pullOneCardFromApi_run. unfold pull_steps. cbv zeta.
  rewrite Hst. simpl resolved_config. unfold is_missing_table.
  split; [|split; [|by rewrite new_events_settings_read]].
  - intros message json Hm Hj.
    rewrite (error_text_inspect js e message json Hm Hj).
    assert (includes (toLowerCase (message ++ json)) "no such table"
            && includes (toLowerCase (message ++ json)) "settings" = true
            <-> contains_ci (message ++ json) "no such table"
                /\ contains_ci (message ++ json) "settings") as Hmiss.
    { by rewrite andb_true_iff, !includes_lower_ci. }
    split.
    + intros Hboth. apply Hmiss in Hboth. by rewrite Hboth.
    + intros Hnot. destruct (_ && _); [|done]. destruct Hnot. by apply Hmiss.
  - by intros thrown ->.
Qed.

Lemma pull_on_failing_settings_witness :
  pullOneCardFromApi sample_builtins (sample_env (Ok (text_response 200 "ABC")) None) "p1"
    {| settings := SettingsFault (sample_error (Some "D1_ERROR: no such table: settings"));
       cards := []; trace := [] |}
  = (Ok outcome_disabled,
     after_settings_read "p1"
       {| settings := SettingsFault (sample_error (Some "D1_ERROR: no such table: settings"));
          cards := []; trace := [] |}).
Proof.
  destruct (pull_on_failing_settings sample_builtins
              (sample_env (Ok (text_response 200 "ABC")) None) "p1"
              {| settings :=
                   SettingsFault (sample_error (Some "D1_ERROR: no such table: settings"));
                 cards := []; trace := [] |}
              (sample_error (Some "D1_ERROR: no such table: settings")) eq_refl)
    as [Hinspect _].
  apply (proj1 (Hinspect "D1_ERROR: no such table: settings" "{}" eq_refl eq_refl)).
  split; apply includes_lower_ci; reflexivity.
Defined.

Lemma append_cancel_l (a p q : string) : (a ++ p = a ++ q)%string -> p = q.
Proof.
  induction a as [|c a IH]; [done|].
  rewrite !append_cons. intros [= H]. by apply IH.
Qed.

(** The settings key of a product and a field names both. *)
Lemma keyOf_names_both (p q : string) (f g : Field) :
  keyOf p f = keyOf q g -> p = q /\ f = g.
Proof.
  intros H. assert (f = g) as <-.
  { apply (f_equal (String.get 10)) in H.
    destruct f, g; try reflexivity; cbv in H; discriminate H. }
  split; [|done]. unfold keyOf in H.
  apply append_cancel_l in H. destruct f; simpl in H;
    by repeat (rewrite !append_cons in H; injection H as H).
Qed.

Lemma resolved_config_keyOf (js : Builtins) (rows : gmap string (option string)) (productId : string) :
  resolved_config js (SettingsRows rows) productId
  = Ok {| enabled :=
            match rows !! keyOf productId FEnabled with
            | Some (Some v) => String.eqb v "true"
            | _ => false
            end;
          url := trim (stored rows (keyOf productId FUrl));
          token := trim (stored rows (keyOf productId FToken)) |}.
Proof. reflexivity. Qed.

(** X7.  Saving the configuration of one product does not change what
    is resolved for any other product: the settings keys of two
    products never coincide. *)
Theorem save_leaves_other_products (js : Builtins) (p q : string) (config : ProductCardApiConfig)
    (w w' : World) :
  p <> q ->
  saveProductCardApiConfig p config w = (Ok tt, w') ->
  (getProductCardApiConfig js q w').1 = (getProductCardApiConfig js q w).1.
Proof.
  intros Hpq Hsave.
  destruct (saveProductCardApiConfig_run _ _ _ _ Hsave) as (rows & Hw & Hw').
  rewrite !getProductCardApiConfig_run, Hw, Hw'.
  rewrite <- keyOf_enabled, <- keyOf_url, <- keyOf_token, !resolved_config_keyOf.
  unfold stored.
  rewrite !lookup_insert_ne; [done|..];
    intros Hk; apply keyOf_names_both in Hk as [? _]; done.
Qed.

Lemma save_leaves_other_products_witness :
  (getProductCardApiConfig sample_builtins "p1"
     (saveProductCardApiConfig "p10"
        {| enabled := false; url := "https://other/"; token := "zzz" |}
        (sample_world "true" "https://x/y")).2).1
  = (getProductCardApiConfig sample_builtins "p1" (sample_world "true" "https://x/y")).1.
Proof.
  apply (save_leaves_other_products sample_builtins "p10" "p1"
           {| enabled := false; url := "https://other/"; token := "zzz" |}
           (sample_world "true" "https://x/y")).
  - discriminate.
  - reflexivity.
Defined.

(** X8.  Saving back the configuration that was just resolved changes
    nothing for the reader: the product resolves to the same
    configuration afterwards. *)
Theorem save_resolved_is_stable (js : Builtins) (productId : string) (config : ProductCardApiConfig)
    (w w1 w2 : World) :
  getProductCardApiConfig js productId w = (Ok config, w1) ->
  saveProductCardApiConfig productId config w1 = (Ok tt, w2) ->
  (getProductCardApiConfig js productId w2).1 = Ok config.
Proof.
  intros Hget Hsave.
  rewrite getProductCardApiConfig_run in Hget. injection Hget as Hcfg _.
  destruct (save_then_get_roundtrip_general js _ _ _ _ Hsave) as [-> _].
  f_equal. destruct (settings w) as [rows|e]; simpl in Hcfg.
  - injection Hcfg as <-. simpl. by rewrite !trim_idempotent.
  - destruct (is_missing_table js e) as [[]|]; [|done..]. by injection Hcfg as <-.
Qed.

Lemma save_resolved_is_stable_witness :
  (getProductCardApiConfig sample_builtins "p1"
     (saveProductCardApiConfig "p1"
        {| enabled := true; url := "https://x/y"; token := "" |}
        (getProductCardApiConfig sample_builtins "p1" (sample_world "true" "  https://x/y ")).2).2).1
  = Ok {| enabled := true; url := "https://x/y"; token := "" |}.
Proof.
  apply (save_resolved_is_stable sample_builtins "p1" _ (sample_world "true" "  https://x/y ")
           (getProductCardApiConfig sample_builtins "p1" (sample_world "true" "  https://x/y ")).2).
  - vm_compute. reflexivity.
  - reflexivity.
Defined.


(** X11.  On a cards table that rejects a row it already holds with an
    error the duplicate heuristic recognises, pulling again after a
    successful pull, from the same upstream answer, returns
    api_card_duplicate and stores nothing more. *)
Theorem second_pull_is_duplicate (js : Builtins) (env : Env) (productId : string) (w : World)
    (key : string) :
  (forall table row, row ∈ table ->
     exists e, cards_verdict env table row = Some e
               /\ isUniqueConstraintError js e = Ok true) ->
  pull_result js env productId w = Ok (success key) ->
  pull_result js env productId (pull_world js env productId w)
  = Ok (failure "api_card_duplicate")
  /\ cards (pull_world js env productId (pull_world js env productId w))
     = (cards w ++ [{| card_productId := productId; card_cardKey := key |}])%list.
Proof.
  intros Hunique. unfold pull_result, pull_world.
  rewrite !pullOneCardFromApi_run.
  pull_cases env productId w; simpl fst; try (intros [= ?]; done).
  { destruct (isUniqueConstraintError _ e4) as [[]|]; intros [= ?]; done. }
  intros [= <-]. simpl snd.
  unfold pull_steps. cbv zeta. simpl settings. simpl cards.
  rewrite Hcfg, Hen, Hurl. cbn [negb]. rewrite Hparse, Hfetch, Hok. cbn [negb].
  rewrite Hbody, Hkey. cbn [negb].
  destruct (Hunique (cards w ++ [{| card_productId := productId;
                                    card_cardKey := extractCardKey payload |}])%list
              {| card_productId := productId; card_cardKey := extractCardKey payload |})
    as (e & -> & ->).
  { apply elem_of_app. right. apply list_elem_of_singleton. done. }
  done.
Qed.

Lemma unique_verdict_rejects (table : list Card) (row : Card) :
  row ∈ table ->
  exists e, unique_verdict table row = Some e
            /\ isUniqueConstraintError sample_builtins e = Ok true.
Proof.
  intros Hin. unfold unique_verdict.
  assert (existsb (fun held => String.eqb (card_productId held) (card_productId row)
                               && String.eqb (card_cardKey held) (card_cardKey row)) table
          = true) as ->.
  { apply existsb_exists. exists row. split; [by apply list_elem_of_In|].
    by rewrite !String.eqb_refl. }
  by eexists.
Qed.

Lemma second_pull_is_duplicate_witness :
  pull_result sample_builtins
    {| url_parse := sample_url_parse;
       http_fetch := fun _ => Ok (text_response 200 " ABC ");
       cards_verdict := unique_verdict |}
    "p1"
    (pull_world sample_builtins
       {| url_parse := sample_url_parse;
          http_fetch := fun _ => Ok (text_response 200 " ABC ");
          cards_verdict := unique_verdict |}
       "p1" (sample_world "true" "https://x/y"))
  = Ok (failure "api_card_duplicate").
Proof.
  apply (second_pull_is_duplicate sample_builtins
           {| url_parse := sample_url_parse;
              http_fetch := fun _ => Ok (text_response 200 " ABC ");
              cards_verdict := unique_verdict |}
           "p1" (sample_world "true" "https://x/y") "ABC").
  - intros table row. apply unique_verdict_rejects.
  - vm_compute. reflexivity.
Defined.

(** X12.  A 2xx answer that does not declare JSON is never parsed: its
    text, trimmed, is the card key, and when the trimmed text is empty
    the pull returns api_card_missing without an insert. *)
Theorem pull_plain_text_body (js : Builtins) (env : Env) (productId : string) (w : World)
    (config : ProductCardApiConfig) (requestUrl : string) (response : Response)
    (text : string) :
  resolved_config js (settings w) productId = Ok config ->
  enabled config = true -> url config <> "" ->
  url_parse env (url config) = Ok requestUrl ->
  http_fetch env (api_request requestUrl config) = Ok response ->
  (200 <= status response <= 299)%N ->
  (forall ct, content_type response = Some ct -> ~ contains_ci ct "application/json") ->
  body_text response = Ok text ->
  (trim text = "" ->
   pull_result js env productId w = Ok (failure "api_card_missing")
   /\ inserts (new_events w (pull_world js env productId w)) = [])
  /\ (trim text <> "" ->
      inserts (new_events w (pull_world js env productId w))
      = [{| card_productId := productId; card_cardKey := trim text |}]).
Proof.
  intros Hcfg Hen Hurl Hparse Hfetch Hrange Hct Htext.
  assert (read_payload response = Ok (JStr text)) as Hbody.
  { unfold read_payload. rewrite Htext.
    destruct (includes _ "application/json") eqn:Hinc; [|done].
    apply includes_lower_ci in Hinc.
    destruct (content_type response) as [ct|].
    - rewrite or_else_empty in Hinc. by destruct (Hct ct).
    - destruct Hinc as (pre & mid & post & Hsplit & Hmid).
      destruct pre, mid; simpl in Hsplit, Hmid; discriminate. }
  unfold pull_result, pull_world. rewrite pullOneCardFromApi_run.
  unfold pull_steps. cbv zeta.
  apply nonempty_true in Hurl. apply response_ok_range in Hrange.
  rewrite Hcfg, Hen, Hurl. cbn [negb]. rewrite Hparse, Hfetch, Hrange. cbn [negb].
  rewrite Hbody, extractCardKey_string. split.
  - intros ->. simpl fst. simpl snd. by rewrite new_events_fetch.
  - intros Hkey. apply nonempty_true in Hkey. rewrite Hkey. cbn [negb].
    destruct (cards_verdict env (cards w) _); simpl snd;
      by rewrite ?new_events_insert, ?new_events_stored.
Qed.

Lemma pull_plain_text_body_witness :
  inserts (new_events (sample_world "true" "https://x/y")
             (pull_world sample_builtins (sample_env (Ok (text_response 200 "  [1, 2]  ")) None) "p1"
                (sample_world "true" "https://x/y")))
  = [{| card_productId := "p1"; card_cardKey := "[1, 2]" |}].
Proof.
  apply (proj2 (pull_plain_text_body sample_builtins
                  (sample_env (Ok (text_response 200 "  [1, 2]  ")) None) "p1"
                  (sample_world "true" "https://x/y")
                  {| enabled := true; url := "https://x/y"; token := "" |}
                  "https://x/y" (text_response 200 "  [1, 2]  ") "  [1, 2]  "
                  ltac:(vm_compute; reflexivity) eq_refl ltac:(discriminate)
                  eq_refl eq_refl ltac:(simpl; lia)
                  ltac:(intros ct [= <-] Hci; apply includes_lower_ci in Hci;
                        vm_compute in Hci; discriminate Hci)
                  eq_refl)).
  vm_compute. discriminate.
Defined.

End PipelineProperties.

(** ** Further properties of the card key extractor *)

Section ExtractorReach.

Lemma probeDirect_agree (fields fields' : list (string * JsValue)) (keys : list string) :
  (forall k, k ∈ keys -> property k fields = property k fields') ->
  probeDirect fields keys = probeDirect fields' keys.
Proof.
  induction keys as [|k keys IH]; intros Hagree; [done|]. simpl.
  rewrite <- (Hagree k) by by left.
  rewrite IH; [done|]. intros k' Hk'. apply Hagree. by right.
Qed.

(** X9.  Only the seven keys cardKey, card, key, code, data, result and
    item of an object matter: two objects that agree on them give the
    same card key, whatever else they hold. *)
Theorem extractCardKey_ignores_other_keys (fields fields' : list (string * JsValue)) :
  (forall k, k ∈ ["cardKey"; "card"; "key"; "code"; "data"; "result"; "item"] ->
             property k fields = property k fields') ->
  extractCardKey (JObj fields) = extractCardKey (JObj fields').
Proof.
  intros Hagree. rewrite !extractCardKey_object.
  rewrite (probeDirect_agree fields fields' directKeys).
  - unfold nestedKeys. simpl map.
    rewrite !(Hagree _) by (rewrite !elem_of_cons; tauto). done.
  - intros k Hk. apply Hagree. unfold directKeys in Hk.
    rewrite !elem_of_cons in Hk. rewrite !elem_of_cons. tauto.
Qed.

Lemma extractCardKey_ignores_other_keys_witness :
  extractCardKey (JObj [("status", JStr "ok"); ("data", JObj [("key", JStr "K9")]);
                        ("id", JNum 7)])
  = extractCardKey (JObj [("data", JObj [("key", JStr "K9")])]).
Proof.
  apply extractCardKey_ignores_other_keys.
  intros k Hk. rewrite !elem_of_cons, elem_of_nil in Hk.
  destruct_or?; subst; try done.
Defined.

Lemma property_found (k : string) (fields : list (string * JsValue)) :
  property k fields = JUndefined \/ (k, property k fields) ∈ fields.
Proof.
  induction fields as [|[k' v] rest IH]; [by left|]. simpl.
  destruct (String.eqb k' k) eqn:Hk.
  - apply String.eqb_eq in Hk as ->. right. by left.
  - destruct IH as [IH|IH]; [by left|]. right. by right.
Qed.

Lemma probeDirect_leaf (fields : list (string * JsValue)) (keys : list string) (v : string) :
  probeDirect fields keys = Some v ->
  exists k s, (k, JStr s) ∈ fields /\ v = trim s.
Proof.
  induction keys as [|k keys IH]; [done|]. simpl.
  destruct (property k fields) as [| | | |s| |] eqn:Hk; try exact IH.
  destruct (nonempty (trim s)); [|exact IH].
  intros [= <-]. exists k, s. split; [|done].
  destruct (property_found k fields) as [Hu|Hin]; [congruence|]. by rewrite Hk in Hin.
Qed.

Lemma firstNonEmpty_member (l : list string) :
  firstNonEmpty l = "" \/ firstNonEmpty l ∈ l.
Proof.
  induction l as [|s l IH]; [by left|]. simpl.
  destruct (nonempty s); [right; by left|].
  destruct IH as [IH|IH]; [by left|]. right. by right.
Qed.

(** X10.  The extractor never makes a key up: its result is either
    empty or the trim of a string that occurs in the payload. *)
Theorem extractCardKey_from_payload (payload : JsValue) :
  extractCardKey payload = ""
  \/ exists s, string_leaf s payload /\ extractCardKey payload = trim s.
Proof.
  induction payload as [| | b | x | s | items IH | fields IH] using JsValue_nested_ind.
  - by left.
  - by left.
  - left. by destruct b.
  - left. simpl. by destruct (negb _).
  - right. exists s. split; [constructor|apply extractCardKey_string].
  - rewrite extractCardKey_array.
    destruct (firstNonEmpty_member (map extractCardKey items)) as [He|Hin]; [by left|].
    apply list_elem_of_fmap in Hin as (item & Hitem & Hin).
    rewrite Forall_forall in IH. destruct (IH item Hin) as [He|(s & Hleaf & Hs)].
    + left. congruence.
    + right. exists s. split; [by apply (leaf_item s items item)|congruence].
  - rewrite extractCardKey_object.
    destruct (probeDirect fields directKeys) as [v|] eqn:Hd.
    + right. destruct (probeDirect_leaf _ _ _ Hd) as (k & s & Hin & ->).
      exists s. split; [|done]. apply (leaf_field s fields k (JStr s)); [done|constructor].
    + destruct (firstNonEmpty_member
                  (map (fun k => extractCardKey (property k fields)) nestedKeys))
        as [He|Hin]; [by left|].
      apply list_elem_of_fmap in Hin as (k & Hk & _).
      destruct (property_found k fields) as [Hu|Hin].
      { left. rewrite Hk, Hu. reflexivity. }
      rewrite Forall_forall in IH.
      destruct (IH _ Hin) as [He|(s & Hleaf & Hs)]; simpl in *.
      * left. congruence.
      * right. exists s. split; [by apply (leaf_field s fields k _ Hin)|congruence].
Qed.

End ExtractorReach.

(** ** Properties of the version comparison *)

Section VersionProperties.

Lemma SFcompare_antisym (x y : SpecFloat.spec_float) :
  SpecFloat.SFcompare y x = option_map CompOpp (SpecFloat.SFcompare x y).
Proof.
  destruct x as [sx|sx| |sx mx ex], y as [sy|sy| |sy my ey]; simpl;
    try (destruct sx; try destruct sy; reflexivity);
    try (destruct sy; reflexivity); try reflexivity.
  destruct sx, sy; simpl; try reflexivity.
  - rewrite (Z.compare_antisym ex ey). destruct (Z.compare ex ey); simpl; try reflexivity.
    by rewrite (Pos.compare_cont_antisym mx my Eq).
  - rewrite (Z.compare_antisym ex ey). destruct (Z.compare ex ey); simpl; try reflexivity.
    f_equal. symmetry. exact (Pos.compare_cont_antisym mx my Eq).
Qed.

(** Of two numbers, at most one is less than the other. *)
Lemma float_ltb_asym (x y : float) : (x <? y)%float = true -> (y <? x)%float = false.
Proof.
  rewrite !ltb_spec. unfold SpecFloat.SFltb.
  rewrite (SFcompare_antisym (Prim2SF x) (Prim2SF y)).
  by destruct (SpecFloat.SFcompare (Prim2SF x) (Prim2SF y)) as [[]|].
Qed.

Lemma float_ltb_irrefl (x : float) : (x <? x)%float = false.
Proof.
  destruct (x <? x)%float eqn:H; [|done]. by rewrite (float_ltb_asym x x H) in H.
Qed.

Lemma compare_loop_same (parts : list float) (i steps : nat) :
  compare_loop parts parts i steps = 0%Z.
Proof.
  revert i. induction steps as [|steps IH]; intros i; [done|].
  simpl. by rewrite float_ltb_irrefl.
Qed.

Lemma compare_loop_swap (partsA partsB : list float) (i steps : nat) :
  compare_loop partsB partsA i steps = (- compare_loop partsA partsB i steps)%Z.
Proof.
  revert i. induction steps as [|steps IH]; intros i; [done|]. simpl.
  destruct (or_zero (partsB !! i) <? or_zero (partsA !! i))%float eqn:Hgt.
  - by rewrite (float_ltb_asym _ _ Hgt).
  - destruct (or_zero (partsA !! i) <? or_zero (partsB !! i))%float; [done|apply IH].
Qed.

Lemma compare_loop_range (partsA partsB : list float) (i steps : nat) :
  compare_loop partsA partsB i steps = 1%Z
  \/ compare_loop partsA partsB i steps = 0%Z
  \/ compare_loop partsA partsB i steps = (-1)%Z.
Proof.
  revert i. induction steps as [|steps IH]; intros i; [by right; left|]. simpl.
  destruct (_ <? _)%float; [by left|].
  destruct (_ <? _)%float; [by right; right|apply IH].
Qed.

(** X13.  A version compares equal to itself, whatever its parts
    convert to. *)
Theorem compareVersions_reflexive (js : Builtins) (a : string) :
  compareVersions js a a = 0%Z.
Proof. apply compare_loop_same. Qed.

(** X14.  Swapping the two versions negates the result: one is newer
    than the other exactly when the other is older than it. *)
Theorem compareVersions_antisymmetric (js : Builtins) (a b : string) :
  compareVersions js b a = (- compareVersions js a b)%Z.
Proof.
  unfold compareVersions. cbv zeta. rewrite Nat.max_comm. apply compare_loop_swap.
Qed.

Lemma split_dot_nonempty (s : string) : split_dot s <> [].
Proof.
  induction s as [|c s IH]; [done|]. simpl.
  destruct (Ascii.eqb c "."); [done|]. by destruct (split_dot s).
Qed.

Lemma split_dot_app (a t : string) :
  split_dot (a ++ "." ++ t)%string = (split_dot a ++ split_dot t)%list.
Proof.
  induction a as [|c a IH]; [done|].
  rewrite append_cons. simpl. rewrite IH.
  destruct (Ascii.eqb c "."); [done|].
  pose proof (split_dot_nonempty a). by destruct (split_dot a).
Qed.

Lemma split_dot_plain (x : string) :
  includes x "." = false -> split_dot x = [x].
Proof.
  induction x as [|c x IH]; [done|].
  rewrite includes_unfold. intros H. apply orb_false_iff in H as [Hhead Hrest].
  simpl in Hhead. simpl.
  destruct (Ascii.eqb c ".") eqn:Hc.
  - apply Ascii.eqb_eq in Hc as ->. by destruct x.
  - by rewrite (IH Hrest).
Qed.

Lemma or_zero_snoc (parts : list float) (z : float) (i : nat) :
  truthy (JNum z) = false ->
  or_zero ((parts ++ [z])%list !! i) = or_zero (parts !! i).
Proof.
  intros Hz. destruct (decide (i < length parts)) as [Hlt|Hge].
  - by rewrite lookup_app_l.
  - rewrite (lookup_ge_None_2 parts) by lia.
    rewrite lookup_app_r by lia.
    destruct (i - length parts) as [|n]; [|done].
    change (or_zero (Some z) = 0%float). unfold or_zero. by rewrite Hz.
Qed.

Lemma compare_loop_agree (partsA partsA' partsB : list float) (i steps : nat) :
  (forall j, or_zero (partsA !! j) = or_zero (partsA' !! j)) ->
  compare_loop partsA partsB i steps = compare_loop partsA' partsB i steps.
Proof.
  intros Hagree. revert i. induction steps as [|steps IH]; intros i; [done|].
  simpl. by rewrite Hagree, IH.
Qed.

Lemma compare_loop_past_end (partsA partsB : list float) (i extra : nat) :
  length partsA <= i -> length partsB <= i ->
  compare_loop partsA partsB i extra = 0%Z.
Proof.
  revert i. induction extra as [|extra IH]; intros i HA HB; [done|]. simpl.
  rewrite !lookup_ge_None_2 by done. simpl.
  apply IH; lia.
Qed.

Lemma compare_loop_more_steps (partsA partsB : list float) (i steps extra : nat) :
  length partsA <= i + steps -> length partsB <= i + steps ->
  compare_loop partsA partsB i (steps + extra) = compare_loop partsA partsB i steps.
Proof.
  revert i. induction steps as [|steps IH]; intros i HA HB.
  - simpl. apply compare_loop_past_end; lia.
  - simpl. rewrite IH by lia. done.
Qed.

(** X15.  A trailing part that converts to zero or to no number at all
    does not count: appending it, after a dot, to a version leaves every
    comparison of that version unchanged. *)
Theorem compareVersions_trailing_part (js : Builtins) (a b x : string) :
  includes x "." = false ->
  truthy (JNum (js_Number js x)) = false ->
  compareVersions js (a ++ "." ++ x) b = compareVersions js a b.
Proof.
  intros Hplain Hzero. unfold compareVersions. cbv zeta.
  rewrite split_dot_app, (split_dot_plain x Hplain), map_app. simpl map.
  rewrite (compare_loop_agree _ (map (js_Number js) (split_dot a)))
    by (intros j; by apply or_zero_snoc).
  rewrite length_app. simpl length.
  set (la := length (map (js_Number js) (split_dot a))).
  set (lb := length (map (js_Number js) (split_dot b))).
  replace (Nat.max (la + 1) lb) with (Nat.max la lb + (Nat.max (la + 1) lb - Nat.max la lb))
    by lia.
  apply compare_loop_more_steps; lia.
Qed.

Lemma compareVersions_trailing_part_witness :
  compareVersions sample_builtins ("1.2" ++ "." ++ "0-beta") "1.10"
  = compareVersions sample_builtins "1.2" "1.10".
Proof.
  apply (compareVersions_trailing_part sample_builtins "1.2" "1.10" "0-beta").
  - reflexivity.
  - reflexivity.
Defined.

End VersionProperties.

(** ** Properties of the update check *)

Section UpdateCheckProperties.

(** Case analysis over the steps of one update check. *)
Ltac check_unfold :=
  unfold check_result, check_world, UpdateCheck.checkForUpdatesClient, fetch;
  unfold try_catch, bind, emit, lift, ret, throw;
  change (UpdateCheck.github_request
            ("https://api.github.com/repos/" ++ UpdateCheck.UPSTREAM_REPO
             ++ "/releases/latest"))
    with releases_request;
  change (UpdateCheck.github_request
            ("https://api.github.com/repos/" ++ UpdateCheck.UPSTREAM_REPO ++ "/tags"))
    with tags_request;
  cbv beta.

Ltac check_cases := check_unfold; repeat case_match; simplify_eq/=.

(** X16.  The update check never throws: a rejected fetch, a body that
    is not JSON, a tag name that has no string form and an unexpected
    status all end in a returned result, which always repeats the
    current version it was asked about. *)
Theorem checkForUpdatesClient_never_throws (js : Builtins) (env : Env)
    (current : string) (w : World) :
  exists result,
    check_result js env current w = Ok result
    /\ UpdateCheck.currentVersion result = current.
Proof.
  check_cases; by eexists.
Qed.


Lemma compareVersions_positive (js : Builtins) (a b : string) :
  (0 <? compareVersions js a b)%Z = true <-> compareVersions js a b = 1%Z.
Proof.
  rewrite Z.ltb_lt. unfold compareVersions. cbv zeta.
  destruct (compare_loop_range (map (js_Number js) (split_dot a))
              (map (js_Number js) (split_dot b)) 0
              (Nat.max (length (map (js_Number js) (split_dot a)))
                 (length (map (js_Number js) (split_dot b))))) as [->|[->| ->]]; lia.
Qed.

Lemma js_or_truthy (a b : JsValue) : truthy b = true -> truthy (js_or a b) = true.
Proof. intros Hb. unfold js_or. by destruct (truthy a) eqn:Ha. Qed.

(** An announced update names a newer version. *)
Lemma check_announces_newer (js : Builtins) (env : Env) (current : string)
    (w : World) (result : UpdateCheck.ClientUpdateCheckResult) :
  check_result js env current w = Ok result ->
  UpdateCheck.hasUpdate result = true ->
  UpdateCheck.error result = None
  /\ exists latest,
       UpdateCheck.latestVersion result = Some latest
       /\ latest <> ""
       /\ compareVersions js latest current = 1%Z.
Proof.
  check_cases; intros [= <-]; simpl; try done;
    intros Hnew; (split; [done|]);
    eexists; (split; [done|]);
    (split; [apply nonempty_true; by destruct (nonempty (strip_v _))
            |by apply compareVersions_positive]).
Qed.

(** X17.  When the check announces an update, it names the latest
    version, a non-empty string that compares as newer than the current
    version, it gives a release link, and it reports no error. *)
Theorem update_announced_is_newer (js : Builtins) (env : Env) (current : string)
    (w : World) (result : UpdateCheck.ClientUpdateCheckResult) :
  check_result js env current w = Ok result ->
  UpdateCheck.hasUpdate result = true ->
  UpdateCheck.error result = None
  /\ truthy (UpdateCheck.releaseUrl result) = true
  /\ exists latest,
       UpdateCheck.latestVersion result = Some latest
       /\ latest <> ""
       /\ compareVersions js latest current = 1%Z.
Proof.
  check_cases; intros [= <-]; simpl; try done;
    intros Hnew; (split; [done|]); (split; [by (done || apply js_or_truthy)|]);
    eexists; (split; [done|]);
    (split; [apply nonempty_true; by destruct (nonempty (strip_v _))
            |by apply compareVersions_positive]).
Qed.

Lemma update_announced_is_newer_witness :
  UpdateCheck.error
    {| UpdateCheck.hasUpdate := true; UpdateCheck.currentVersion := "1.9.0";
       UpdateCheck.latestVersion := Some "1.10.0";
       UpdateCheck.releaseUrl := JStr "https://github.com/chatgptuk/ldc-shop/releases";
       UpdateCheck.error := None |} = None
  /\ truthy (JStr "https://github.com/chatgptuk/ldc-shop/releases") = true
  /\ exists latest,
       Some "1.10.0" = Some latest /\ latest <> ""
       /\ compareVersions sample_builtins latest "1.9.0" = 1%Z.
Proof.
  apply (update_announced_is_newer sample_builtins
           (github_env (Ok (json_response 200 (JObj [("tag_name", JStr "v1.10.0")])))
              (Throw (sample_error None)))
           "1.9.0" empty_world
           {| UpdateCheck.hasUpdate := true; UpdateCheck.currentVersion := "1.9.0";
              UpdateCheck.latestVersion := Some "1.10.0";
              UpdateCheck.releaseUrl := JStr "https://github.com/chatgptuk/ldc-shop/releases";
              UpdateCheck.error := None |}).
  - vm_compute. reflexivity.
  - reflexivity.
Defined.

(** X18.  A check that reports an error announces nothing: no update,
    no latest version and no release link; and the error it reports is
    a truthy value, so that an error text is never empty. *)
Theorem failed_check_announces_nothing (js : Builtins) (env : Env) (current : string)
    (w : World) (result : UpdateCheck.ClientUpdateCheckResult) (message : JsValue) :
  check_result js env current w = Ok result ->
  UpdateCheck.error result = Some message ->
  UpdateCheck.hasUpdate result = false
  /\ UpdateCheck.latestVersion result = None
  /\ UpdateCheck.releaseUrl result = JNull
  /\ truthy message = true
  /\ (forall text, message = JStr text -> text <> "").
Proof.
  intros Hresult Herror.
  cut (UpdateCheck.hasUpdate result = false
       /\ UpdateCheck.latestVersion result = None
       /\ UpdateCheck.releaseUrl result = JNull
       /\ truthy message = true).
  { intros (Hno & Hlatest & Hlink & Hm). do 4 (split; [done|]).
    intros text Ht Hempty. subst. discriminate Hm. }
  revert Hresult Herror.
  check_cases; intros [= <-]; simpl; try done; intros [= <-];
    (split; [done|]); (split; [done|]); (split; [done|]);
    first [by apply js_or_truthy | done].
Qed.

Lemma failed_check_announces_nothing_witness :
  false = false /\ (None : option string) = None /\ JNull = JNull
  /\ truthy (JStr "GitHub API error: 500") = true
  /\ (forall text, JStr "GitHub API error: 500" = JStr text -> text <> "").
Proof.
  apply (failed_check_announces_nothing sample_builtins
           (github_env (Ok (text_response 500 "")) (Throw (sample_error None)))
           "1.9.0" empty_world
           {| UpdateCheck.hasUpdate := false; UpdateCheck.currentVersion := "1.9.0";
              UpdateCheck.latestVersion := None; UpdateCheck.releaseUrl := JNull;
              UpdateCheck.error := Some (JStr "GitHub API error: 500") |}
           (JStr "GitHub API error: 500")).
  - vm_compute. reflexivity.
  - reflexivity.
Defined.

(** X19.  A check asks for the latest release first, and asks for the
    tags, once, only when the answer to that was a 404; it makes no
    other call and changes neither the settings nor the cards. *)
Theorem update_check_calls (js : Builtins) (env : Env) (current : string) (w : World) :
  (new_events w (check_world js env current w) = [EvFetch releases_request]
   \/ (new_events w (check_world js env current w)
       = [EvFetch releases_request; EvFetch tags_request]
       /\ exists response,
            http_fetch env releases_request = Ok response
            /\ status response = 404%N))
  /\ settings (check_world js env current w) = settings w
  /\ cards (check_world js env current w) = cards w.
Proof.
  unfold new_events.
  check_cases;
    (split; [|done]);
    rewrite <- ?app_assoc, drop_app_length;
    first [by left | right; split; [done|]; eexists; split; [done|]; by apply N.eqb_eq].
Qed.


(** X20.  What a failed check reports: the message of the error that
    rejected the fetch, or update_check_failed when it has none or a
    falsy one; the
    status of the release answer when that is neither 2xx nor 404; and,
    when the release answer was a 404 and the tags answer is not 2xx,
    still the 404 of the release answer, whatever the status of the tags
    answer. *)
Theorem update_check_error_text (js : Builtins) (env : Env) (current : string)
    (w : World) :
  (forall e, http_fetch env releases_request = Throw e ->
     check_result js env current w
     = Ok (failed_check current (message_or e "update_check_failed")))
  /\ (forall response,
        http_fetch env releases_request = Ok response ->
        ~ (200 <= status response <= 299)%N -> status response <> 404%N ->
        check_result js env current w
        = Ok (failed_check current (JStr ("GitHub API error: " ++ of_N (status response)))))
  /\ (forall response tagsResponse,
        http_fetch env releases_request = Ok response ->
        status response = 404%N ->
        http_fetch env tags_request = Ok tagsResponse ->
        ~ (200 <= status tagsResponse <= 299)%N ->
        check_result js env current w
        = Ok (failed_check current (JStr "GitHub API error: 404"))).
Proof.
  unfold failed_check. split; [|split].
  - intros e He. check_unfold. by rewrite He.
  - intros response Hr Hrange H404.
    assert (response_ok response = false) as Hok.
    { destruct (response_ok response) eqn:Hok; [|done].
      by apply response_ok_range in Hok. }
    apply N.eqb_neq in H404.
    check_unfold. by rewrite Hr, Hok, H404.
  - intros response tagsResponse Hr H404 Ht Hrange.
    assert (response_ok response = false) as Hok.
    { unfold response_ok. by rewrite H404. }
    assert (response_ok tagsResponse = false) as Htok.
    { destruct (response_ok tagsResponse) eqn:Htok; [|done].
      by apply response_ok_range in Htok. }
    check_unfold. rewrite Hr, Hok, H404. simpl. by rewrite Ht, Htok.
Qed.

Lemma update_check_error_text_witness :
  check_result sample_builtins
    (github_env (Ok (text_response 404 "")) (Ok (text_response 503 "")))
    "1.9.0" empty_world
  = Ok (failed_check "1.9.0" (JStr "GitHub API error: 404")).
Proof.
  apply (proj2 (proj2 (update_check_error_text sample_builtins
                         (github_env (Ok (text_response 404 ""))
                            (Ok (text_response 503 "")))
                         "1.9.0" empty_world))
           (text_response 404 "") (text_response 503 "")).
  - reflexivity.
  - reflexivity.
  - reflexivity.
  - simpl. lia.
Defined.

(** X21.  The latest version is the tag name of the release without its
    leading v, and an update is announced exactly when that version
    compares as newer than the current one; a release whose tag name is
    missing or empty announces nothing and is no error. *)
Theorem update_check_release_tag (js : Builtins) (env : Env) (current : string)
    (w : World) (response : Response) (release : JsValue) :
  http_fetch env releases_request = Ok response ->
  (200 <= status response <= 299)%N ->
  body_json response = Ok release ->
  (forall version,
     member "tag_name" release = JStr (String "v" version) -> version <> "" ->
     exists result,
       check_result js env current w = Ok result
       /\ UpdateCheck.latestVersion result = Some version
       /\ (UpdateCheck.hasUpdate result = true
           <-> compareVersions js version current = 1%Z))
  /\ (truthy (member "tag_name" release) = false ->
      exists result,
        check_result js env current w = Ok result
        /\ UpdateCheck.hasUpdate result = false
        /\ UpdateCheck.latestVersion result = None
        /\ UpdateCheck.error result = None).
Proof.
  intros Hr Hrange Hbody. apply response_ok_range in Hrange. split.
  - intros version Htag Hne. apply nonempty_true in Hne.
    check_unfold. rewrite Hr, Hrange, Hbody, Htag. simpl. rewrite Hne.
    eexists. split; [done|]. split; [done|]. simpl. apply compareVersions_positive.
  - intros Hfalsy.
    check_unfold. rewrite Hr, Hrange, Hbody. unfold js_or. rewrite Hfalsy. simpl.
    by eexists.
Qed.

Lemma update_check_release_tag_witness :
  exists result,
    check_result sample_builtins
      (github_env (Ok (json_response 200 (JObj [("tag_name", JStr "v1.10.0")])))
         (Throw (sample_error None)))
      "1.9.0" empty_world = Ok result
    /\ UpdateCheck.latestVersion result = Some "1.10.0"
    /\ (UpdateCheck.hasUpdate result = true
        <-> compareVersions sample_builtins "1.10.0" "1.9.0" = 1%Z).
Proof.
  apply (proj1 (update_check_release_tag sample_builtins
                  (github_env (Ok (json_response 200 (JObj [("tag_name", JStr "v1.10.0")])))
                     (Throw (sample_error None)))
                  "1.9.0" empty_world
                  (json_response 200 (JObj [("tag_name", JStr "v1.10.0")]))
                  (JObj [("tag_name", JStr "v1.10.0")])
                  eq_refl ltac:(simpl; lia) eq_refl)).
  - reflexivity.
  - discriminate.
Defined.

End UpdateCheckProperties.

(** ** Properties of the update banner *)

Section BannerProperties.

Lemma differs_same (v : option string) : UpdateCheck.differs v v = false.
Proof. destruct v as [x|]; [|done]. simpl. by rewrite String.eqb_refl. Qed.

Lemma differs_true (a b : option string) : UpdateCheck.differs a b = true -> a <> b.
Proof.
  destruct a as [x|], b as [y|]; simpl; try done.
  intros H [= ->]. by rewrite String.eqb_refl in H.
Qed.

(** One run of the effect on a fresh mount keeps the result of the
    check or nothing. *)
Lemma run_effect_mounted (js : Builtins) (env : Env) (current : string)
    (storage : gmap string string) (w : World) :
  exists result,
    check_result js env current w = Ok result
    /\ (UpdateCheck.run_effect js env current storage UpdateCheck.mounted w).1
       = Ok (if UpdateCheck.hasUpdate result
                && UpdateCheck.differs (UpdateCheck.latestVersion result)
                     (storage !! "dismissed_update_version")
             then {| UpdateCheck.updateInfo := Some result;
                     UpdateCheck.dismissed := false |}
             else UpdateCheck.mounted).
Proof.
  unfold check_result, UpdateCheck.run_effect, try_catch, bind, ret.
  destruct (UpdateCheck.checkForUpdatesClient js env current w) as [[result|e] w'] eqn:Hrun.
  - exists result. split; [done|]. simpl. by destruct (_ && _).
  - exfalso. revert Hrun. unfold UpdateCheck.checkForUpdatesClient, fetch.
    unfold try_catch, bind, emit, lift, ret, throw. cbv beta.
    repeat case_match; simplify_eq/=; done.
Qed.

(** X22.  After a mount the banner is shown only for an update: the
    check has named a latest version that compares as newer than the
    running one, that version is not the one recorded as dismissed in
    the local storage, and the check has reported no error. *)
Theorem banner_shows_new_version_only (js : Builtins) (env : Env) (current : string)
    (storage : gmap string string) (w : World) (b : UpdateCheck.Banner) :
  (UpdateCheck.run_effect js env current storage UpdateCheck.mounted w).1 = Ok b ->
  UpdateCheck.shown b = true ->
  exists info latest,
    UpdateCheck.updateInfo b = Some info
    /\ check_result js env current w = Ok info
    /\ UpdateCheck.latestVersion info = Some latest
    /\ compareVersions js latest current = 1%Z
    /\ storage !! "dismissed_update_version" <> Some latest
    /\ UpdateCheck.error info = None.
Proof.
  destruct (run_effect_mounted js env current storage w) as (result & Hcheck & ->).
  destruct (UpdateCheck.hasUpdate result) eqn:Hup; simpl; [|by intros [= <-]].
  destruct (UpdateCheck.differs _ _) eqn:Hdiff; intros [= <-]; [|done]. intros _.
  destruct (check_announces_newer _ _ _ _ _ Hcheck Hup) as (Herr & latest & Hlatest & _ & Hnew).
  exists result, latest. split; [done|]. split; [done|]. split; [done|].
  split; [done|]. split; [|done].
  apply differs_true in Hdiff. by rewrite Hlatest in Hdiff.
Qed.

Lemma banner_shows_new_version_only_witness :
  exists info latest,
    Some {| UpdateCheck.hasUpdate := true; UpdateCheck.currentVersion := "1.9.0";
            UpdateCheck.latestVersion := Some "1.10.0";
            UpdateCheck.releaseUrl := JStr "https://github.com/chatgptuk/ldc-shop/releases";
            UpdateCheck.error := None |} = Some info
    /\ check_result sample_builtins
         (github_env (Ok (json_response 200 (JObj [("tag_name", JStr "v1.10.0")])))
            (Throw (sample_error None)))
         "1.9.0" empty_world = Ok info
    /\ UpdateCheck.latestVersion info = Some latest
    /\ compareVersions sample_builtins latest "1.9.0" = 1%Z
    /\ ({["dismissed_update_version" := "1.9.5"]} : gmap string string)
         !! "dismissed_update_version" <> Some latest
    /\ UpdateCheck.error info = None.
Proof.
  apply (banner_shows_new_version_only sample_builtins
           (github_env (Ok (json_response 200 (JObj [("tag_name", JStr "v1.10.0")])))
              (Throw (sample_error None)))
           "1.9.0" {["dismissed_update_version" := "1.9.5"]} empty_world
           {| UpdateCheck.updateInfo :=
                Some {| UpdateCheck.hasUpdate := true;
                        UpdateCheck.currentVersion := "1.9.0";
                        UpdateCheck.latestVersion := Some "1.10.0";
                        UpdateCheck.releaseUrl :=
                          JStr "https://github.com/chatgptuk/ldc-shop/releases";
                        UpdateCheck.error := None |};
              UpdateCheck.dismissed := false |}).
  - vm_compute. reflexivity.
  - reflexivity.
Defined.

(** X23.  Dismissing a shown banner hides it and records its version in
    the local storage; on any later mount whose check names that same
    version as the latest, the banner stays hidden. *)
Theorem dismissed_version_stays_hidden (js : Builtins) (env : Env) (current : string)
    (storage : gmap string string) (w : World) (b : UpdateCheck.Banner) :
  (UpdateCheck.run_effect js env current storage UpdateCheck.mounted w).1 = Ok b ->
  UpdateCheck.shown b = true ->
  exists latest,
    (UpdateCheck.latestVersion <$> UpdateCheck.updateInfo b) = Some (Some latest)
    /\ UpdateCheck.shown (UpdateCheck.handleDismiss storage b).2 = false
    /\ (UpdateCheck.handleDismiss storage b).1 !! "dismissed_update_version" = Some latest
    /\ forall env' current' w' result b',
         check_result js env' current' w' = Ok result ->
         UpdateCheck.latestVersion result = Some latest ->
         (UpdateCheck.run_effect js env' current'
            (UpdateCheck.handleDismiss storage b).1 UpdateCheck.mounted w').1 = Ok b' ->
         UpdateCheck.shown b' = false.
Proof.
  destruct (run_effect_mounted js env current storage w) as (result & Hcheck & ->).
  destruct (UpdateCheck.hasUpdate result) eqn:Hup; simpl; [|by intros [= <-]].
  destruct (UpdateCheck.differs _ _) eqn:Hdiff; intros [= <-]; [|done]. intros _.
  destruct (check_announces_newer _ _ _ _ _ Hcheck Hup)
    as (_ & latest & Hlatest & Hne & _).
  apply nonempty_true in Hne.
  exists latest. unfold UpdateCheck.handleDismiss. simpl. rewrite Hlatest, Hne. simpl.
  split; [done|]. split; [unfold UpdateCheck.shown; simpl; apply andb_false_r|].
  split; [apply lookup_insert_eq|].
  intros env' current' w' result' b' Hcheck' Hlatest'.
  destruct (run_effect_mounted js env' current'
              (<["dismissed_update_version" := latest]> storage) w')
    as (result2 & Hcheck2 & ->).
  rewrite Hcheck' in Hcheck2. injection Hcheck2 as <-.
  rewrite lookup_insert_eq, Hlatest', differs_same, andb_false_r.
  by intros [= <-].
Qed.

Lemma dismissed_version_stays_hidden_witness :
  exists latest,
    (UpdateCheck.latestVersion <$>
       Some {| UpdateCheck.hasUpdate := true; UpdateCheck.currentVersion := "1.9.0";
               UpdateCheck.latestVersion := Some "1.10.0";
               UpdateCheck.releaseUrl :=
                 JStr "https://github.com/chatgptuk/ldc-shop/releases";
               UpdateCheck.error := None |}) = Some (Some latest)
    /\ UpdateCheck.shown
         (UpdateCheck.handleDismiss ∅
            {| UpdateCheck.updateInfo :=
                 Some {| UpdateCheck.hasUpdate := true;
                         UpdateCheck.currentVersion := "1.9.0";
                         UpdateCheck.latestVersion := Some "1.10.0";
                         UpdateCheck.releaseUrl :=
                           JStr "https://github.com/chatgptuk/ldc-shop/releases";
                         UpdateCheck.error := None |};
               UpdateCheck.dismissed := false |}).2 = false
    /\ (UpdateCheck.handleDismiss ∅
          {| UpdateCheck.updateInfo :=
               Some {| UpdateCheck.hasUpdate := true;
                       UpdateCheck.currentVersion := "1.9.0";
                       UpdateCheck.latestVersion := Some "1.10.0";
                       UpdateCheck.releaseUrl :=
                         JStr "https://github.com/chatgptuk/ldc-shop/releases";
                       UpdateCheck.error := None |};
             UpdateCheck.dismissed := false |}).1 !! "dismissed_update_version"
       = Some latest
    /\ forall env' current' w' result b',
         check_result sample_builtins env' current' w' = Ok result ->
         UpdateCheck.latestVersion result = Some latest ->
         (UpdateCheck.run_effect sample_builtins env' current'
            (UpdateCheck.handleDismiss ∅
               {| UpdateCheck.updateInfo :=
                    Some {| UpdateCheck.hasUpdate := true;
                            UpdateCheck.currentVersion := "1.9.0";
                            UpdateCheck.latestVersion := Some "1.10.0";
                            UpdateCheck.releaseUrl :=
                              JStr "https://github.com/chatgptuk/ldc-shop/releases";
                            UpdateCheck.error := None |};
                  UpdateCheck.dismissed := false |}).1 UpdateCheck.mounted w').1 = Ok b' ->
         UpdateCheck.shown b' = false.
Proof.
  apply (dismissed_version_stays_hidden sample_builtins
           (github_env (Ok (json_response 200 (JObj [("tag_name", JStr "v1.10.0")])))
              (Throw (sample_error None)))
           "1.9.0" ∅ empty_world
           {| UpdateCheck.updateInfo :=
                Some {| UpdateCheck.hasUpdate := true;
                        UpdateCheck.currentVersion := "1.9.0";
                        UpdateCheck.latestVersion := Some "1.10.0";
                        UpdateCheck.releaseUrl :=
                          JStr "https://github.com/chatgptuk/ldc-shop/releases";
                        UpdateCheck.error := None |};
              UpdateCheck.dismissed := false |}).
  - vm_compute. reflexivity.
  - reflexivity.
Defined.

End BannerProperties.
